(** * Jobs debugger: stuck-job listing, reclaim, inspection and summary

    A shallow embedding of [src/jobs/debugger.py].  The module is a set of
    diagnostic routines over the rows of a [Job] table reached through a
    Django-style object-relational layer: every routine builds queries,
    prints lines, and [manual_clear_stuck] may write rows back.

    The embedding keeps the effects the code has:
    - the table, the wall clock ([timezone.now()]), the text printed and
      the writes requested live in a [World] threaded through a small
      state-and-exception monad [M];
    - a query set is lazy: it is a function of the table, evaluated when
      it is counted or iterated;
    - exceptions ([DoesNotExist], [OverflowError] of date arithmetic, a
      failing [save]) abort the routine unless the code catches them. *)

From Stdlib Require Import ZArith Lia.
From Stdlib Require Import OrderedTypeEx.
From stdpp Require Import base decidable numbers option list strings sorting.

(** ** Exceptions and outcomes *)

Inductive exn : Type :=
  | DoesNotExist
  | MultipleObjectsReturned
  | OverflowError
  | DatabaseError.

#[global] Instance exn_eq_dec : EqDecision exn.
Proof. solve_decision. Defined.

Inductive outcome (A : Type) : Type :=
  | Return (a : A)
  | Raise (e : exn).
Arguments Return {A} a.
Arguments Raise {A} e.

(** ** Dates and durations

    A [datetime] is a count of microseconds since 0001-01-01T00:00:00, the
    smallest value of the runtime's type; the largest is the last
    microsecond of year 9999.  A [timedelta] is a count of microseconds
    whose day part must stay within a billion days. *)

Definition datetime : Type := Z.
Definition timedelta : Type := Z.

Definition US_PER_MINUTE : Z := 60000000.
Definition US_PER_DAY : Z := 86400000000.
Definition MAX_DATETIME : Z := 3652059 * US_PER_DAY - 1.
Definition MAX_DELTA_DAYS : Z := 999999999.

(** [timedelta(minutes=m)] *)
Definition timedelta_minutes (m : Z) : outcome timedelta :=
  let us := (m * US_PER_MINUTE)%Z in
  if bool_decide (MAX_DELTA_DAYS < Z.abs (us `div` US_PER_DAY))%Z
  then Raise OverflowError
  else Return us.

(** [timedelta(hours=h)] *)
Definition timedelta_hours (h : Z) : outcome timedelta :=
  timedelta_minutes (h * 60).

(** [t - d] for a date [t] and a duration [d] *)
Definition datetime_sub (t : datetime) (d : timedelta) : outcome datetime :=
  let r := (t - d)%Z in
  if bool_decide (0 ≤ r ≤ MAX_DATETIME)%Z then Return r else Raise OverflowError.

(** ** The Job model *)

(** Modelled from the spec: the [Job] model class is imported from
    [mojo.apps.jobs.models], which is not part of the sources; its fields
    are the ones the spec's data model lists and the debugger reads. *)
Record Job : Type := mkJob {
  id : string;
  func : string;
  channel : string;
  status : string;
  attempt : Z;
  max_retries : Z;
  created : datetime;
  started_at : option datetime;
  finished_at : option datetime;
  expires_at : option datetime;
  runner_id : option string;
  last_error : option string;
  payload : string
}.

#[global] Instance Job_eq_dec : EqDecision Job.
Proof. solve_decision. Defined.

Definition set_status (s : string) (j : Job) : Job :=
  mkJob (id j) (func j) (channel j) s (attempt j) (max_retries j) (created j)
        (started_at j) (finished_at j) (expires_at j) (runner_id j)
        (last_error j) (payload j).

Definition set_finished_at (t : option datetime) (j : Job) : Job :=
  mkJob (id j) (func j) (channel j) (status j) (attempt j) (max_retries j)
        (created j) (started_at j) t (expires_at j) (runner_id j)
        (last_error j) (payload j).

Definition set_last_error (e : option string) (j : Job) : Job :=
  mkJob (id j) (func j) (channel j) (status j) (attempt j) (max_retries j)
        (created j) (started_at j) (finished_at j) (expires_at j) (runner_id j)
        e (payload j).

(** ** Printed text

    A printed line is the list of the pieces of its f-string: literal text
    and interpolated values.  How a value is rendered is left to the
    runtime; the value itself is kept. *)

Inductive Frag : Type :=
  | Lit (s : string)
  | Str (s : string)
  | OptStr (s : option string)
  | Int (z : Z)
  | Num (n : nat)
  | Flag (b : bool)
  | Time (t : datetime)
  | OptTime (t : option datetime)
  | Minutes1f (us : Z).

Definition Line : Type := list Frag.

(** ** The world *)

Record World : Type := mkWorld {
  table : list Job;               (* rows of the Job table, in storage order *)
  clock : nat → datetime;         (* the successive readings of the wall clock *)
  ticks : nat;                    (* readings taken so far *)
  faults : nat → bool;            (* whether the n-th write requested raises *)
  journal : list (string * bool); (* writes requested so far: row id, success *)
  stdout : list Line              (* lines printed so far *)
}.

Definition with_table (t : list Job) (w : World) : World :=
  mkWorld t (clock w) (ticks w) (faults w) (journal w) (stdout w).
Definition with_ticks (n : nat) (w : World) : World :=
  mkWorld (table w) (clock w) n (faults w) (journal w) (stdout w).
Definition with_journal (jl : list (string * bool)) (w : World) : World :=
  mkWorld (table w) (clock w) (ticks w) (faults w) jl (stdout w).
Definition with_stdout (out : list Line) (w : World) : World :=
  mkWorld (table w) (clock w) (ticks w) (faults w) (journal w) out.

(** ** The monad of the routines *)

Definition M (A : Type) : Type := World → outcome A * World.

#[global] Instance M_ret : MRet M := λ A a w, (Return a, w).
#[global] Instance M_bind : MBind M := λ A B f m w,
  match m w with
  | (Return a, w') => f a w'
  | (Raise e, w') => (Raise e, w')
  end.

Definition lift {A} (o : outcome A) : M A := λ w, (o, w).

(** [try: m except e: h] *)
Definition try_except {A} (m : M A) (e : exn) (h : M A) : M A := λ w,
  match m w with
  | (Raise e', w') => if decide (e' = e) then h w' else (Raise e', w')
  | r => r
  end.

(** [timezone.now()]: the next reading of the clock *)
Definition timezone_now : M datetime := λ w,
  (Return (clock w (ticks w)), with_ticks (S (ticks w)) w).

(** [print(line)] *)
Definition print (l : Line) : M unit := λ w,
  (Return (), with_stdout (stdout w ++ [l]) w).

(** [for x in xs: body] *)
Fixpoint for_each {A} (xs : list A) (body : A → M unit) : M unit :=
  match xs with
  | [] => mret ()
  | x :: rest => body x ;; for_each rest body
  end.

(** A [for] loop that updates one local variable. *)
Fixpoint for_fold {A S} (xs : list A) (acc : S) (body : S → A → M S) : M S :=
  match xs with
  | [] => mret acc
  | x :: rest => acc' ← body acc x; for_fold rest acc' body
  end.

(** ** Query sets

    A query set is a description of rows: a function of the table that is
    only applied when the query is counted, iterated or fetched from. *)

Definition Query (A : Type) : Type := list Job → list A.
Definition QuerySet : Type := Query Job.

(** [Job.objects.all()] *)
Definition objects_all : QuerySet := λ t, t.

(** [q.filter(...)], the condition given as a decidable predicate on rows *)
Definition qfilter (P : Job → Prop) `{∀ j, Decision (P j)} (q : QuerySet) : QuerySet :=
  λ t, filter P (q t).

(** [order_by]: the rows sorted on one key.  The query names no second
    key, so rows with equal keys come as the engine yields them: here they
    keep the order they have in the table (a stable insertion sort). *)
Section stable_sort.
Context {A : Type} (R : relation A) `{∀ x y, Decision (R x y)}.

Fixpoint insert_by (x : A) (l : list A) : list A :=
  match l with
  | [] => [x]
  | y :: rest => if decide (R x y) then x :: y :: rest else y :: insert_by x rest
  end.

Definition sort_by (l : list A) : list A := foldr insert_by [] l.

End stable_sort.

(** [q.order_by('created')]: ascending *)
Definition created_le (a b : Job) : Prop := (created a ≤ created b)%Z.
Definition created_ge (a b : Job) : Prop := (created b ≤ created a)%Z.

#[global] Instance created_le_dec a b : Decision (created_le a b).
Proof. unfold created_le. apply _. Defined.
#[global] Instance created_ge_dec a b : Decision (created_ge a b).
Proof. unfold created_ge. apply _. Defined.

Definition order_by_created (q : QuerySet) : QuerySet :=
  λ t, sort_by created_le (q t).

(** [q.order_by('-created')] *)
Definition order_by_created_desc (q : QuerySet) : QuerySet :=
  λ t, sort_by created_ge (q t).

(** [q[:n]] *)
Definition slice_to (n : nat) (q : QuerySet) : QuerySet :=
  λ t, take n (q t).

(** [q1.union(q2)]: the rows of both, each distinct row once *)
Definition qunion (q1 q2 : QuerySet) : QuerySet :=
  λ t, remove_dups (q1 t ++ q2 t).

(** [q.count()] *)
Definition qcount {A} (q : Query A) : M nat := λ w,
  (Return (length (q (table w))), w).

(** Iterating [q]: the rows are fetched once, when the loop starts. *)
Definition fetch {A} (q : Query A) : M (list A) := λ w,
  (Return (q (table w)), w).

(** [Job.objects.get(id=job_id)] *)
Definition objects_get (job_id : string) : M Job := λ w,
  match filter (λ j, id j = job_id) (table w) with
  | [] => (Raise DoesNotExist, w)
  | [j] => (Return j, w)
  | _ => (Raise MultipleObjectsReturned, w)
  end.

(** The row update of [job.save()]: the row with the instance's key is
    replaced; an instance whose key is not in the table is added. *)
Definition store (job : Job) (t : list Job) : list Job :=
  if bool_decide (id job ∈ id <$> t)
  then (λ r, if decide (id r = id job) then job else r) <$> t
  else t ++ [job].

(** [job.save()] *)
Definition save (job : Job) : M unit := λ w,
  if faults w (length (journal w))
  then (Raise DatabaseError, with_journal (journal w ++ [(id job, false)]) w)
  else (Return (),
        with_journal (journal w ++ [(id job, true)])
                     (with_table (store job (table w)) w)).

(** ** The routines *)

(** Truth value of the [channel] argument: [None] and the empty string
    are false. *)
Definition truthy (channel : option string) : bool :=
  match channel with
  | Some c => negb (String.eqb c "")
  | None => false
  end.

(** The pieces of [{f' FOR CHANNEL: {channel}' if channel else ''}] *)
Definition channel_suffix (label : string) (channel : option string) : Line :=
  if truthy channel then [Lit label; OptStr channel] else [].

(** [if channel: jobs_query = jobs_query.filter(channel=channel)] *)
Definition in_channel (chan : option string) (q : QuerySet) : QuerySet :=
  if truthy chan then qfilter (λ j, Some (channel j) = chan) q else q.

Definition id8 (job : Job) : string := String.substring 0 8 (id job).

Definition is_active (j : Job) : Prop :=
  status j = "pending" ∨ status j = "running".

#[global] Instance is_active_dec j : Decision (is_active j).
Proof. unfold is_active. apply _. Defined.

(** The verdict lines of [debug_stuck_jobs] *)
Definition EXPIRED : Line := [Lit "  ❌ EXPIRED!"].
Definition POSSIBLY_STUCK : Line := [Lit "  ⚠️ POSSIBLY STUCK (pending > 5min)"].
Definition SEEMS_NORMAL : Line := [Lit "  ✅ Seems normal"].

(** The test [job.expires_at and job.expires_at < timezone.now()]: the
    clock is only read when the expiry is set. *)
Definition has_expired (job : Job) : M bool :=
  match expires_at job with
  | None => mret false
  | Some e => now ← timezone_now; mret (bool_decide (e < now)%Z)
  end.

(** The body of the loop of [debug_stuck_jobs] *)
Definition show_pending_job (job : Job) : M unit :=
  print [Lit "Job "; Str (id8 job); Lit "..."] ;;
  print [Lit "  Status: "; Str (status job)] ;;
  print [Lit "  Channel: "; Str (channel job)] ;;
  print [Lit "  Created: "; Time (created job)] ;;
  print [Lit "  Started: "; OptTime (started_at job)] ;;
  print [Lit "  Runner: "; OptStr (runner_id job)] ;;
  print [Lit "  Attempt: "; Int (attempt job)] ;;
  print [Lit "  Max Retries: "; Int (max_retries job)] ;;
  print [Lit "  Expires: "; OptTime (expires_at job)] ;;
  expired ← has_expired job;
  (if expired : bool then print EXPIRED
   else
     now ← timezone_now;
     d ← lift (timedelta_minutes 5);
     cutoff ← lift (datetime_sub now d);
     if bool_decide (created job < cutoff)%Z && String.eqb (status job) "pending"
     then print POSSIBLY_STUCK
     else print SEEMS_NORMAL) ;;
  print [].

Definition pending_jobs (chan : option string) : QuerySet :=
  order_by_created
    (qfilter (λ j, status j = "pending") (in_channel chan objects_all)).

Definition debug_stuck_jobs (chan : option string) : M unit :=
  print ([Lit "=== DEBUGGING STUCK JOBS"] ++ channel_suffix " FOR CHANNEL: " chan
         ++ [Lit " ==="]) ;;
  n ← qcount (pending_jobs chan);
  print [Lit "Total pending jobs: "; Num n] ;;
  jobs ← fetch (slice_to 10 (pending_jobs chan));
  for_each jobs show_pending_job.

(** The lookup [expires_at__lt=now]: a row without expiry never matches. *)
Definition expires_before (now : datetime) (j : Job) : Prop :=
  match expires_at j with
  | Some e => (e < now)%Z
  | None => False
  end.

#[global] Instance expires_before_dec now j : Decision (expires_before now j).
Proof. unfold expires_before. destruct (expires_at j); apply _. Defined.

Definition debug_clear_stuck_logic (chan : option string) : M (QuerySet * QuerySet) :=
  print ([Lit "=== CLEAR STUCK LOGIC"] ++ channel_suffix " FOR CHANNEL: " chan
         ++ [Lit " ==="]) ;;
  let jobs_query := in_channel chan objects_all in
  now ← timezone_now;
  d ← lift (timedelta_minutes 10);
  cutoff ← lift (datetime_sub now d);
  let potentially_stuck :=
    qfilter (λ j, is_active j ∧ (created j < cutoff)%Z) jobs_query in
  n ← qcount potentially_stuck;
  print [Lit "Jobs potentially stuck (pending/running > 10min): "; Num n] ;;
  let expired_jobs :=
    qfilter (λ j, expires_before now j ∧ is_active j) jobs_query in
  m ← qcount expired_jobs;
  print [Lit "Expired jobs still pending/running: "; Num m] ;;
  mret (potentially_stuck, expired_jobs).

(** The three assignments made to a job before it is saved *)
Definition mark_failed (now : datetime) (job : Job) : Job :=
  set_last_error (Some "Cleared as stuck job")
    (set_finished_at (Some now) (set_status "failed" job)).

(** The body of the loop of [manual_clear_stuck] *)
Definition clear_job (dry_run : bool) (cleared_count : nat) (job : Job) : M nat :=
  print [Lit "Clearing job "; Str (id8 job); Lit "... - "; Str (status job);
         Lit " - "; Str (channel job)] ;;
  (if negb dry_run
   then now ← timezone_now; save (mark_failed now job)
   else mret ()) ;;
  mret (cleared_count + 1).

(** [manual_clear_stuck(channel=None, dry_run=True)]; an argument left out
    of the call is [None] here and takes its default. *)
Definition manual_clear_stuck (chan : option string) (dry_run_arg : option bool)
  : M nat :=
  let dry_run := default true dry_run_arg in
  print ([Lit "=== MANUAL CLEAR STUCK"] ++ channel_suffix " FOR CHANNEL: " chan
         ++ [Lit " ==="]) ;;
  print [Lit "DRY RUN: "; Flag dry_run] ;;
  qs ← debug_clear_stuck_logic chan;
  let all_stuck := qunion qs.1 qs.2 in
  n ← qcount all_stuck;
  print [Lit "Total jobs to clear: "; Num n] ;;
  jobs ← fetch all_stuck;
  cleared_count ← for_fold jobs 0 (clear_job dry_run);
  (if negb dry_run
   then print [Lit "✅ Cleared "; Num cleared_count; Lit " stuck jobs"]
   else print [Lit "🔍 Would clear "; Num cleared_count; Lit " stuck jobs (dry run)"]) ;;
  mret cleared_count.

(** The part of [inspect_job] inside [try] *)
Definition inspect_found (job_id : string) : M (option Job) :=
  job ← objects_get job_id;
  print [Lit "=== JOB INSPECTION: "; Str job_id; Lit " ==="] ;;
  print [Lit "ID: "; Str (id job)] ;;
  print [Lit "Function: "; Str (func job)] ;;
  print [Lit "Channel: "; Str (channel job)] ;;
  print [Lit "Status: "; Str (status job)] ;;
  print [Lit "Attempt: "; Int (attempt job); Lit "/"; Int (max_retries job)] ;;
  print [Lit "Created: "; Time (created job)] ;;
  print [Lit "Started: "; OptTime (started_at job)] ;;
  print [Lit "Finished: "; OptTime (finished_at job)] ;;
  print [Lit "Expires: "; OptTime (expires_at job)] ;;
  print [Lit "Runner: "; OptStr (runner_id job)] ;;
  print [Lit "Last Error: "; OptStr (last_error job)] ;;
  print [Lit "Payload: "; Str (payload job)] ;;
  now ← timezone_now;
  (if bool_decide (expires_before now job)
   then print [Lit "🚨 JOB HAS EXPIRED!"] else mret ()) ;;
  (if String.eqb (status job) "pending"
   then d ← lift (timedelta_minutes 10);
        cutoff ← lift (datetime_sub now d);
        if bool_decide (created job < cutoff)%Z
        then print [Lit "⚠️ Job has been pending for over 10 minutes"]
        else mret ()
   else mret ()) ;;
  (if String.eqb (status job) "running"
   then match started_at job with
        | Some s =>
            d ← lift (timedelta_hours 1);
            cutoff ← lift (datetime_sub now d);
            if bool_decide (s < cutoff)%Z
            then print [Lit "⚠️ Job has been running for over 1 hour"]
            else mret ()
        | None => mret ()
        end
   else mret ()) ;;
  mret (Some job).

Definition inspect_job (job_id : string) : M (option Job) :=
  try_except (inspect_found job_id) DoesNotExist
    (print [Lit "❌ Job "; Str job_id; Lit " not found"] ;; mret None).

(** Lexical order of the text keys, the order of [order_by] on them *)
Definition string_le (a b : string) : Prop := String.leb a b = true.

#[global] Instance string_le_dec a b : Decision (string_le a b).
Proof. unfold string_le. apply _. Defined.

(** [q.values(key).annotate(count=Count(key)).order_by(key)]: one item per
    distinct key, with the number of rows that carry it, sorted by key. *)
Definition values_count (key : Job → string) (q : QuerySet) : Query (string * nat) :=
  λ t, (λ k, (k, length (filter (λ j, key j = k) (q t))))
         <$> sort_by string_le (remove_dups (key <$> q t)).

Definition NL : string := String (Ascii.ascii_of_nat 10) "".

Definition jobs_summary (chan : option string) : M unit :=
  print ([Lit "=== JOBS SUMMARY"] ++ channel_suffix " FOR CHANNEL: " chan
         ++ [Lit " ==="]) ;;
  let jobs_query := in_channel chan objects_all in
  let status_counts := values_count status jobs_query in
  print [Lit "Status breakdown:"] ;;
  items ← fetch status_counts;
  for_each items (λ item, print [Lit "  "; Str item.1; Lit ": "; Num item.2]) ;;
  (if negb (truthy chan)
   then let channel_counts := values_count channel jobs_query in
        print [Lit (NL +:+ "Channel breakdown:")] ;;
        items ← fetch channel_counts;
        for_each items (λ item, print [Lit "  "; Str item.1; Lit ": "; Num item.2])
   else mret ()) ;;
  let recent_jobs := slice_to 5 (order_by_created_desc jobs_query) in
  print [Lit (NL +:+ "Most recent jobs:")] ;;
  jobs ← fetch recent_jobs;
  for_each jobs (λ job,
    print [Lit "  "; Str (id8 job); Lit "... - "; Str (status job); Lit " - ";
           Str (channel job); Lit " - "; Time (created job)]).

(** [find_old_pending_jobs(minutes=10, channel=None)] *)
Definition find_old_pending_jobs (minutes_arg : option Z) (chan : option string)
  : M QuerySet :=
  let minutes := default 10%Z minutes_arg in
  now ← timezone_now;
  d ← lift (timedelta_minutes minutes);
  cutoff ← lift (datetime_sub now d);
  let jobs_query :=
    qfilter (λ j, status j = "pending" ∧ (created j < cutoff)%Z) objects_all in
  let jobs_query := in_channel chan jobs_query in
  let jobs := order_by_created jobs_query in
  print ([Lit "=== JOBS PENDING > "; Int minutes; Lit " MINUTES"]
         ++ channel_suffix " IN CHANNEL: " chan ++ [Lit " ==="]) ;;
  n ← qcount jobs;
  print [Lit "Found "; Num n; Lit " jobs"] ;;
  rows ← fetch jobs;
  for_each rows (λ job,
    now ← timezone_now;
    print [Lit "Job "; Str (id8 job); Lit "... - "; Str (channel job);
           Lit " - pending for "; Minutes1f (now - created job); Lit " minutes"]) ;;
  mret jobs.

(** * Observations on runs and closed forms of the loops *)

(** A clock reading is sane when it is a date at least an hour after the
    smallest one: the subtractions of the routines then stay in range. *)
Definition sane_reading (t : datetime) : Prop :=
  (60 * US_PER_MINUTE ≤ t ≤ MAX_DATETIME)%Z.

Definition clock_sane (w : World) : Prop := ∀ n, sane_reading (clock w n).

(** The two query sets that [debug_clear_stuck_logic] builds when the clock
    reads [now], and the union [manual_clear_stuck] takes of them. *)
Definition potentially_stuck_at (chan : option string) (now : datetime) : QuerySet :=
  qfilter (λ j, is_active j ∧ (created j < now - 10 * US_PER_MINUTE)%Z)
          (in_channel chan objects_all).

Definition expired_jobs_at (chan : option string) (now : datetime) : QuerySet :=
  qfilter (λ j, expires_before now j ∧ is_active j) (in_channel chan objects_all).

Definition all_stuck_at (chan : option string) (now : datetime) : QuerySet :=
  qunion (potentially_stuck_at chan now) (expired_jobs_at chan now).

(** What a run printed and which writes it requested, read off the worlds
    before and after it. *)
Definition printed_since (w w' : World) : list Line :=
  drop (length (stdout w)) (stdout w').

Definition written_since (w w' : World) : list (string * bool) :=
  drop (length (journal w)) (journal w').

(** The line [clear_job] prints when it starts on a job *)
Definition clearing_line (job : Job) : Line :=
  [Lit "Clearing job "; Str (id8 job); Lit "... - "; Str (status job);
   Lit " - "; Str (channel job)].

Definition is_clearing_line (l : Line) : Prop :=
  match l with
  | Lit s :: _ => s = "Clearing job "
  | _ => False
  end.

#[global] Instance is_clearing_line_dec l : Decision (is_clearing_line l).
Proof. destruct l as [|[] ?]; simpl; apply _. Defined.

(** Candidates the loop started on, writes that raised, keys written *)
Definition attempted (w w' : World) : nat :=
  length (filter is_clearing_line (printed_since w w')).

Definition failed_writes (w w' : World) : nat :=
  length (filter (λ e, e.2 = false) (written_since w w')).

Definition cleared_ids (w w' : World) : list string :=
  (filter (λ e, e.2 = true) (written_since w w')).*1.

(** The table after the jobs of a list were marked failed and saved one
    after the other, the clock read once for each from reading [k] on. *)
Fixpoint cleared_table (clk : nat → datetime) (k : nat) (jobs : list Job)
    (t : list Job) : list Job :=
  match jobs with
  | [] => t
  | job :: rest => cleared_table clk (S k) rest (store (mark_failed (clk k) job) t)
  end.

(** The world after the loop wrote [jobs] without a fault *)
Definition after_clearing (jobs : list Job) (w : World) : World :=
  mkWorld (cleared_table (clock w) (ticks w) jobs (table w))
          (clock w) (ticks w + length jobs) (faults w)
          (journal w ++ ((λ j, (id j, true)) <$> jobs))
          (stdout w ++ (clearing_line <$> jobs)).

(** What [manual_clear_stuck] prints before its loop, the clock reading
    [now] and the table [t], and the line it prints after the loop *)
Definition preamble (chan : option string) (dry_run : bool) (now : datetime)
    (t : list Job) : list Line :=
  [ [Lit "=== MANUAL CLEAR STUCK"] ++ channel_suffix " FOR CHANNEL: " chan
      ++ [Lit " ==="];
    [Lit "DRY RUN: "; Flag dry_run];
    [Lit "=== CLEAR STUCK LOGIC"] ++ channel_suffix " FOR CHANNEL: " chan
      ++ [Lit " ==="];
    [Lit "Jobs potentially stuck (pending/running > 10min): ";
     Num (length (potentially_stuck_at chan now t))];
    [Lit "Expired jobs still pending/running: ";
     Num (length (expired_jobs_at chan now t))];
    [Lit "Total jobs to clear: "; Num (length (all_stuck_at chan now t))] ].

Definition closing_line (dry_run : bool) (cleared_count : nat) : Line :=
  if negb dry_run
  then [Lit "✅ Cleared "; Num cleared_count; Lit " stuck jobs"]
  else [Lit "🔍 Would clear "; Num cleared_count; Lit " stuck jobs (dry run)"].

(** The nine lines [show_pending_job] prints before the verdict *)
Definition job_details (job : Job) : list Line :=
  [ [Lit "Job "; Str (id8 job); Lit "..."];
    [Lit "  Status: "; Str (status job)];
    [Lit "  Channel: "; Str (channel job)];
    [Lit "  Created: "; Time (created job)];
    [Lit "  Started: "; OptTime (started_at job)];
    [Lit "  Runner: "; OptStr (runner_id job)];
    [Lit "  Attempt: "; Int (attempt job)];
    [Lit "  Max Retries: "; Int (max_retries job)];
    [Lit "  Expires: "; OptTime (expires_at job)] ].

(** The verdict for a job that has not expired, the clock reading [now] *)
Definition stale_verdict (now : datetime) (job : Job) : Line :=
  if bool_decide (created job < now - 5 * US_PER_MINUTE)%Z
     && String.eqb (status job) "pending"
  then POSSIBLY_STUCK else SEEMS_NORMAL.

(** The verdict printed for a job when the next clock reading is the
    [k]-th, and the number of the reading after it. *)
Definition verdict (clk : nat → datetime) (k : nat) (job : Job) : Line * nat :=
  match expires_at job with
  | Some e =>
      if bool_decide (e < clk k)%Z then (EXPIRED, S k)
      else (stale_verdict (clk (S k)) job, S (S k))
  | None => (stale_verdict (clk k) job, S k)
  end.

(** What the loop of [debug_stuck_jobs] prints for a list of jobs *)
Fixpoint listing (clk : nat → datetime) (k : nat) (jobs : list Job) : list Line :=
  match jobs with
  | [] => []
  | job :: rest =>
      job_details job ++ [(verdict clk k job).1; []]
        ++ listing clk (verdict clk k job).2 rest
  end.

#[global] Instance Frag_eq_dec : EqDecision Frag.
Proof. solve_decision. Defined.

Definition is_verdict (l : Line) : Prop :=
  l = EXPIRED ∨ l = POSSIBLY_STUCK ∨ l = SEEMS_NORMAL.

#[global] Instance is_verdict_dec l : Decision (is_verdict l).
Proof. unfold is_verdict. apply _. Defined.

(** ** Sample data *)

Definition sample_job (i st : string) (cr : datetime) (ex : option datetime) : Job :=
  mkJob i "send" "email" st 0 3 cr None None ex None None "{}".

(** A moment of year 1997, in microseconds *)
Definition sample_now : datetime := 63000000000000000%Z.

Definition sample_world (t : list Job) : World :=
  mkWorld t (λ _, sample_now) 0 (λ _, false) [] [].

Definition sample_table : list Job :=
  [ sample_job "a" "pending" (sample_now - 12 * US_PER_MINUTE)%Z None;
    sample_job "b" "running" sample_now (Some (sample_now - 1)%Z);
    sample_job "c" "finished" 0%Z None ].

(** The sample world with a storage whose first write raises *)
Definition faulty_world : World :=
  mkWorld sample_table (λ _, sample_now) 0 (λ n, bool_decide (n = 0)) [] [].

(** A table whose only job is running and past its expiry *)
Definition running_expired_job : Job :=
  sample_job "b" "running" sample_now (Some (sample_now - 1)%Z).

(** Twelve pending jobs, created one minute apart *)
Definition twelve_pending : list Job :=
  (λ n : nat, sample_job (String (Ascii.ascii_of_nat (65 + n)) "") "pending"
                (sample_now - 30 * US_PER_MINUTE + Z.of_nat n * US_PER_MINUTE)%Z None)
  <$> seq 0 12.

(** A pending job created at the very moment the sample clock shows *)
Definition fresh_pending_job : Job := sample_job "n" "pending" sample_now None.

(** The lines [jobs_summary] prints for a count and for a recent job *)
Definition count_line (item : string * nat) : Line :=
  [Lit "  "; Str item.1; Lit ": "; Num item.2].

Definition recent_line (job : Job) : Line :=
  [Lit "  "; Str (id8 job); Lit "... - "; Str (status job); Lit " - ";
   Str (channel job); Lit " - "; Time (created job)].

(** All that [jobs_summary] prints over the table [t] *)
Definition summary_output (chan : option string) (t : list Job) : list Line :=
  let jobs_query := in_channel chan objects_all in
  [ [Lit "=== JOBS SUMMARY"] ++ channel_suffix " FOR CHANNEL: " chan ++ [Lit " ==="];
    [Lit "Status breakdown:"] ]
  ++ (count_line <$> values_count status jobs_query t)
  ++ (if negb (truthy chan)
      then [Lit (NL +:+ "Channel breakdown:")]
           :: (count_line <$> values_count channel jobs_query t)
      else [])
  ++ [[Lit (NL +:+ "Most recent jobs:")]]
  ++ (recent_line <$> slice_to 5 (order_by_created_desc jobs_query) t).

(** Three jobs created at the same moment *)
Definition tie_a : Job := sample_job "a" "pending" sample_now None.
Definition tie_b : Job := sample_job "b" "pending" sample_now None.
Definition tie_c : Job := sample_job "c" "pending" sample_now None.

(** * The remaining routine and further observations *)

(** [q.exists()] *)
Definition qexists {A} (q : Query A) : M bool := λ w,
  (Return (bool_decide (q (table w) ≠ [])), w).

(** [q.first()] on an ordered query set: its first row, or [None] *)
Definition qfirst (q : QuerySet) : M (option Job) := λ w,
  (Return (head (q (table w))), w).

(** [quick_debug] can end in one more way than the routines it calls: the
    [AttributeError] of reading [id] off the [None] that [first()] gives
    for an empty query set. *)
Inductive quick_exn : Type :=
  | Called (e : exn)
  | AttributeError.

Inductive quick_outcome (A : Type) : Type :=
  | Done (a : A)
  | Failed (e : quick_exn).
Arguments Done {A} a.
Arguments Failed {A} e.

Definition Q (A : Type) : Type := World → quick_outcome A * World.

#[global] Instance Q_ret : MRet Q := λ A a w, (Done a, w).
#[global] Instance Q_bind : MBind Q := λ A B f m w,
  match m w with
  | (Done a, w') => f a w'
  | (Failed e, w') => (Failed e, w')
  end.

(** A call of one of the routines above *)
Definition call {A} (m : M A) : Q A := λ w,
  match m w with
  | (Return a, w') => (Done a, w')
  | (Raise e, w') => (Failed (Called e), w')
  end.

Definition attribute_error {A} : Q A := λ w, (Failed AttributeError, w).

(** ["=" * n] *)
Fixpoint repeat_eq (n : nat) : string :=
  match n with
  | O => ""
  | S n' => "=" +:+ repeat_eq n'
  end.

(** [quick_debug(channel='email')]; an argument left out of the call is
    [None] here and takes its default. *)
Definition quick_debug (channel_arg : option (option string)) : Q unit :=
  let chan := default (Some "email") channel_arg in
  call (print [Lit "🔍 QUICK DEBUG FOR CHANNEL: "; OptStr chan]) ;;
  call (print [Lit (repeat_eq 50)]) ;;
  call (jobs_summary chan) ;;
  call (print []) ;;
  old_jobs ← call (find_old_pending_jobs (Some 5%Z) chan);
  call (print []) ;;
  has ← call (qexists old_jobs);
  if has : bool
  then call (print [Lit "🔍 Inspecting first old pending job:"]) ;;
       first ← call (qfirst old_jobs);
       match first with
       | Some job => call (inspect_job (id job)) ;; mret ()
       | None => attribute_error
       end
  else mret ().

(** A routine is read-only when no run of it, returning or raising,
    changes the table, requests a write, or touches the clock's readings
    and the storage's faults. *)
Definition read_only {A} (m : M A) : Prop :=
  ∀ w, table (m w).2 = table w ∧ journal (m w).2 = journal w
       ∧ clock (m w).2 = clock w ∧ faults (m w).2 = faults w.

(** The lines [inspect_job] prints for a job it found, before the flags *)
Definition inspection_details (job_id : string) (job : Job) : list Line :=
  [ [Lit "=== JOB INSPECTION: "; Str job_id; Lit " ==="];
    [Lit "ID: "; Str (id job)];
    [Lit "Function: "; Str (func job)];
    [Lit "Channel: "; Str (channel job)];
    [Lit "Status: "; Str (status job)];
    [Lit "Attempt: "; Int (attempt job); Lit "/"; Int (max_retries job)];
    [Lit "Created: "; Time (created job)];
    [Lit "Started: "; OptTime (started_at job)];
    [Lit "Finished: "; OptTime (finished_at job)];
    [Lit "Expires: "; OptTime (expires_at job)];
    [Lit "Runner: "; OptStr (runner_id job)];
    [Lit "Last Error: "; OptStr (last_error job)];
    [Lit "Payload: "; Str (payload job)] ].

(** The three flags of [inspect_job] *)
Definition HAS_EXPIRED : Line := [Lit "🚨 JOB HAS EXPIRED!"].
Definition PENDING_TOO_LONG : Line :=
  [Lit "⚠️ Job has been pending for over 10 minutes"].
Definition RUNNING_TOO_LONG : Line :=
  [Lit "⚠️ Job has been running for over 1 hour"].

Definition is_expired_at (now : datetime) (job : Job) : Prop :=
  expires_before now job.
Definition is_pending_too_long (now : datetime) (job : Job) : Prop :=
  status job = "pending" ∧ (created job < now - 10 * US_PER_MINUTE)%Z.
Definition is_running_too_long (now : datetime) (job : Job) : Prop :=
  status job = "running"
  ∧ ∃ s, started_at job = Some s ∧ (s < now - 60 * US_PER_MINUTE)%Z.

#[global] Instance is_pending_too_long_dec now job :
  Decision (is_pending_too_long now job).
Proof. unfold is_pending_too_long. apply _. Defined.

#[global] Instance is_running_too_long_dec now job :
  Decision (is_running_too_long now job).
Proof.
  unfold is_running_too_long. destruct (started_at job) as [s|].
  - destruct (decide (status job = "running" ∧ (s < now - 60 * US_PER_MINUTE)%Z))
      as [Hy|Hn].
    + left. destruct Hy. eauto.
    + right. intros [? (s' & [= <-] & ?)]. tauto.
  - right. intros [_ (s' & [=] & _)].
Defined.

(** The flags [inspect_job] prints when the clock reads [now] *)
Definition inspection_flags (now : datetime) (job : Job) : list Line :=
  (if decide (is_expired_at now job) then [HAS_EXPIRED] else [])
  ++ (if decide (is_pending_too_long now job) then [PENDING_TOO_LONG] else [])
  ++ (if decide (is_running_too_long now job) then [RUNNING_TOO_LONG] else []).

(** Sum of the counts of a breakdown *)
Definition total_count (items : list (string * nat)) : nat :=
  foldr (λ item acc, item.2 + acc) 0 items.

(** A pending job that is both old and past its expiry *)
Definition old_expired_job : Job :=
  sample_job "e" "pending" (sample_now - 12 * US_PER_MINUTE)%Z
             (Some (sample_now - 1)%Z).

(** The line [find_old_pending_jobs] prints for a job when the clock reads
    [now], and the lines of its loop, the clock read once for each job from
    reading [k] on. *)
Definition age_line (now : datetime) (job : Job) : Line :=
  [Lit "Job "; Str (id8 job); Lit "... - "; Str (channel job);
   Lit " - pending for "; Minutes1f (now - created job); Lit " minutes"].

Fixpoint age_lines (clk : nat → datetime) (k : nat) (rows : list Job) : list Line :=
  match rows with
  | [] => []
  | job :: rest => age_line (clk k) job :: age_lines clk (S k) rest
  end.

(** All that [find_old_pending_jobs] prints when it finds [rows] *)
Definition old_pending_output (minutes : Z) (chan : option string)
    (clk : nat → datetime) (k : nat) (rows : list Job) : list Line :=
  [ [Lit "=== JOBS PENDING > "; Int minutes; Lit " MINUTES"]
      ++ channel_suffix " IN CHANNEL: " chan ++ [Lit " ==="];
    [Lit "Found "; Num (length rows); Lit " jobs"] ]
  ++ age_lines clk k rows.

(** The pending jobs older than [minutes] at the reading [now] *)
Definition old_pending_at (minutes : Z) (chan : option string) (now : datetime)
  : QuerySet :=
  order_by_created
    (in_channel chan
       (qfilter (λ j, status j = "pending"
                      ∧ (created j < now - minutes * US_PER_MINUTE)%Z)
                objects_all)).

(** A run of [quick_debug] is quiet when it does not end in the
    [AttributeError], changes no row and requests no write. *)
Definition quiet {A} (m : Q A) : Prop :=
  ∀ w, (m w).1 ≠ Failed AttributeError
       ∧ table (m w).2 = table w ∧ journal (m w).2 = journal w.

Definition INSPECTING : Line := [Lit "🔍 Inspecting first old pending job:"].

(** ** Calls that pass any value for [dry_run]

    [manual_clear_stuck] above is the routine at the values its signature
    shows, [True] and [False].  The code does not ask for a boolean: it
    prints the value as it is and tests its truth ([if not dry_run]), so a
    caller may pass [None], a number or a string as well. *)

Inductive pyval : Type :=
  | PyNone
  | PyBool (b : bool)
  | PyInt (z : Z)
  | PyStr (s : string).

(** Truth value of a value: [None], [False], [0] and [''] are false. *)
Definition truth (v : pyval) : bool :=
  match v with
  | PyNone => false
  | PyBool b => b
  | PyInt z => negb (z =? 0)%Z
  | PyStr s => negb (String.eqb s "")
  end.

(** The piece of an f-string that interpolates a value *)
Definition show_value (v : pyval) : Frag :=
  match v with
  | PyNone => OptStr None
  | PyBool b => Flag b
  | PyInt z => Int z
  | PyStr s => Str s
  end.

(** [manual_clear_stuck(channel=None, dry_run=True)] at any value of
    [dry_run]; an argument left out of the call is [None] here and takes
    its default. *)
Definition manual_clear_stuck_any (chan : option string)
    (dry_run_arg : option pyval) : M nat :=
  let dry_run := default (PyBool true) dry_run_arg in
  print ([Lit "=== MANUAL CLEAR STUCK"] ++ channel_suffix " FOR CHANNEL: " chan
         ++ [Lit " ==="]) ;;
  print [Lit "DRY RUN: "; show_value dry_run] ;;
  qs ← debug_clear_stuck_logic chan;
  let all_stuck := qunion qs.1 qs.2 in
  n ← qcount all_stuck;
  print [Lit "Total jobs to clear: "; Num n] ;;
  jobs ← fetch all_stuck;
  cleared_count ← for_fold jobs 0 (clear_job (truth dry_run));
  (if negb (truth dry_run)
   then print [Lit "✅ Cleared "; Num cleared_count; Lit " stuck jobs"]
   else print [Lit "🔍 Would clear "; Num cleared_count; Lit " stuck jobs (dry run)"]) ;;
  mret cleared_count.

(** * Properties *)

(** ** Date arithmetic *)

Lemma timedelta_minutes_small (m : Z) :
  (0 ≤ m ≤ 60)%Z → timedelta_minutes m = Return (m * US_PER_MINUTE)%Z.
Proof.
  intros Hm. unfold timedelta_minutes.
  rewrite bool_decide_eq_false_2; [done|].
  unfold MAX_DELTA_DAYS, US_PER_MINUTE, US_PER_DAY.
  assert (0 ≤ (m * 60000000) `div` 86400000000 ≤ 0)%Z; [|lia].
  split; [apply Z.div_pos; lia|].
  apply Z.lt_succ_r, Z.div_lt_upper_bound; lia.
Qed.

Lemma datetime_sub_Return (t : datetime) (d : timedelta) (r : datetime) :
  datetime_sub t d = Return r → r = (t - d)%Z.
Proof. unfold datetime_sub. case_bool_decide; congruence. Qed.

Lemma datetime_sub_sane (t : datetime) (m : Z) :
  sane_reading t → (0 ≤ m ≤ 60)%Z →
  datetime_sub t (m * US_PER_MINUTE)%Z = Return (t - m * US_PER_MINUTE)%Z.
Proof.
  unfold sane_reading, datetime_sub, US_PER_MINUTE. intros Ht Hm.
  rewrite bool_decide_eq_true_2; [done|]. lia.
Qed.

Lemma sample_now_sane : sane_reading sample_now.
Proof. unfold sane_reading. vm_compute. split; discriminate. Defined.

(** ** Sorting *)

Section stable_sort_facts.
Context {A : Type} (R : relation A) `{∀ x y, Decision (R x y)}.

Lemma insert_by_Permutation (x : A) (l : list A) : insert_by R x l ≡ₚ x :: l.
Proof.
  induction l as [|y rest IH]; cbn; [done|].
  case_decide; [done|]. rewrite IH. apply Permutation_swap.
Qed.

Lemma sort_by_Permutation (l : list A) : sort_by R l ≡ₚ l.
Proof.
  induction l as [|x rest IH]; cbn; [done|].
  by rewrite insert_by_Permutation, IH.
Qed.

Lemma StronglySorted_insert_by `{!Total R, !Transitive R} (x : A) (l : list A) :
  StronglySorted R l → StronglySorted R (insert_by R x l).
Proof.
  induction l as [|y rest IH]; cbn; intros Hl.
  - by repeat constructor.
  - apply StronglySorted_cons in Hl as [Hy Hrest]. case_decide as Hxy.
    + apply StronglySorted_cons. split; [|by apply StronglySorted_cons].
      constructor; [done|]. eapply Forall_impl; [exact Hy|].
      intros z Hyz. by etrans.
    + apply StronglySorted_cons. split; [|by apply IH].
      rewrite insert_by_Permutation. constructor; [|done].
      by destruct (total R x y).
Qed.

Lemma StronglySorted_sort_by `{!Total R, !Transitive R} (l : list A) :
  StronglySorted R (sort_by R l).
Proof.
  induction l as [|x rest IH]; cbn; [constructor|].
  by apply StronglySorted_insert_by.
Qed.
End stable_sort_facts.

(** ** Rows of a channel *)

Lemma elem_of_in_channel (chan : option string) (q : QuerySet) (t : list Job) (r : Job) :
  r ∈ in_channel chan q t ↔
  r ∈ q t ∧ (truthy chan = true → Some (channel r) = chan).
Proof.
  unfold in_channel. destruct (truthy chan); unfold qfilter.
  - rewrite list_elem_of_filter. tauto.
  - intuition discriminate.
Qed.

(** ** Selection of the jobs to clear *)

Lemma debug_clear_stuck_logic_unfold (chan : option string) (w : World) :
  let now := clock w (ticks w) in
  let w1 := with_ticks (S (ticks w)) w in
  let banner := [Lit "=== CLEAR STUCK LOGIC"] ++ channel_suffix " FOR CHANNEL: " chan
                ++ [Lit " ==="] in
  debug_clear_stuck_logic chan w =
    match datetime_sub now (10 * US_PER_MINUTE)%Z with
    | Return _ =>
        (Return (potentially_stuck_at chan now, expired_jobs_at chan now),
         with_stdout
           (stdout w ++
            [ banner;
              [Lit "Jobs potentially stuck (pending/running > 10min): ";
               Num (length (potentially_stuck_at chan now (table w)))];
              [Lit "Expired jobs still pending/running: ";
               Num (length (expired_jobs_at chan now (table w)))] ]) w1)
    | Raise e => (Raise e, with_stdout (stdout w ++ [banner]) w1)
    end.
Proof.
  intros now w1 banner.
  unfold debug_clear_stuck_logic, mbind, M_bind, print, timezone_now, lift.
  cbn [with_stdout with_ticks table clock ticks stdout].
  rewrite (timedelta_minutes_small 10) by lia. fold now.
  destruct (datetime_sub now (10 * US_PER_MINUTE)%Z) as [cutoff|e] eqn:Hsub; [|done].
  apply datetime_sub_Return in Hsub. subst cutoff.
  cbn. rewrite <- !app_assoc. reflexivity.
Qed.

Lemma elem_of_all_stuck_at (chan : option string) (now : datetime) (t : list Job) (r : Job) :
  r ∈ all_stuck_at chan now t ↔
  (r ∈ t ∧ (truthy chan = true → Some (channel r) = chan))
  ∧ (status r = "pending" ∨ status r = "running")
  ∧ ((created r < now - 10 * US_PER_MINUTE)%Z
     ∨ ∃ e, expires_at r = Some e ∧ (e < now)%Z).
Proof.
  unfold all_stuck_at, potentially_stuck_at, expired_jobs_at, qunion, qfilter.
  rewrite elem_of_remove_dups, elem_of_app, !list_elem_of_filter,
    !elem_of_in_channel.
  unfold objects_all, is_active, expires_before.
  destruct (expires_at r) as [e|].
  - split.
    + intros [H|H]; [tauto|]. intuition eauto.
    + intros (Hin & Hact & [Hold|(e' & [= <-] & He)]); tauto.
  - split.
    + intros [H|H]; tauto.
    + intros (Hin & Hact & [Hold|(e' & [=] & _)]). tauto.
Qed.

Lemma NoDup_keys_inj (t : list Job) (a b : Job) :
  NoDup (id <$> t) → a ∈ t → b ∈ t → id a = id b → a = b.
Proof.
  induction t as [|x t IH]; [by intros _ ?%elem_of_nil|].
  rewrite fmap_cons, NoDup_cons. intros [Hx Hkeys].
  intros [->|Ha]%elem_of_cons [->|Hb]%elem_of_cons Hab; auto.
  - destruct Hx. rewrite Hab. by apply list_elem_of_fmap_2.
  - destruct Hx. rewrite <- Hab. by apply list_elem_of_fmap_2.
Qed.

(** ** Running the monad *)

Lemma bind_Return {A B} (m : M A) (f : A → M B) (w w' : World) (a : A) :
  m w = (Return a, w') → (m ≫= f) w = f a w'.
Proof. intros H. unfold mbind, M_bind. by rewrite H. Qed.

Lemma bind_Raise {A B} (m : M A) (f : A → M B) (w w' : World) (e : exn) :
  m w = (Raise e, w') → (m ≫= f) w = (Raise e, w').
Proof. intros H. unfold mbind, M_bind. by rewrite H. Qed.

(** Exposes the fields of the worlds built by the setters. *)
Ltac world_simpl :=
  unfold with_journal, with_table, with_ticks, with_stdout;
  cbn [table clock ticks faults journal stdout].

(** ** The clearing loop *)

Lemma clear_job_dry (n : nat) (job : Job) (w : World) :
  clear_job true n job w =
    (Return (n + 1), with_stdout (stdout w ++ [clearing_line job]) w).
Proof. reflexivity. Qed.

Lemma clear_loop_dry (jobs : list Job) (n : nat) (w : World) :
  for_fold jobs n (clear_job true) w =
    (Return (n + length jobs),
     with_stdout (stdout w ++ (clearing_line <$> jobs)) w).
Proof.
  revert n w. induction jobs as [|job rest IH]; intros n w.
  - destruct w. cbn. rewrite Nat.add_0_r, app_nil_r. reflexivity.
  - cbn [for_fold]. rewrite (bind_Return _ _ _ _ _ (clear_job_dry n job w)).
    rewrite IH. destruct w. unfold with_stdout. cbn. rewrite <- app_assoc.
    do 2 f_equal. lia.
Qed.

Lemma clear_job_ok (n : nat) (job : Job) (w : World) :
  faults w (length (journal w)) = false →
  clear_job false n job w = (Return (n + 1), after_clearing [job] w).
Proof.
  intros Hf. unfold clear_job, mbind, M_bind, print, timezone_now, save, mret, M_ret.
  cbn. rewrite Hf. unfold after_clearing. world_simpl. cbn. do 2 f_equal; lia.
Qed.

Lemma clear_job_fault (n : nat) (job : Job) (w : World) :
  faults w (length (journal w)) = true →
  clear_job false n job w =
    (Raise DatabaseError,
     mkWorld (table w) (clock w) (S (ticks w)) (faults w)
             (journal w ++ [(id job, false)])
             (stdout w ++ [clearing_line job])).
Proof.
  intros Hf. unfold clear_job, mbind, M_bind, print, timezone_now, save, mret, M_ret.
  cbn. rewrite Hf. world_simpl. reflexivity.
Qed.

Lemma after_clearing_cons (job : Job) (rest : list Job) (w : World) :
  after_clearing rest (after_clearing [job] w) = after_clearing (job :: rest) w.
Proof.
  unfold after_clearing. cbn. rewrite <- !app_assoc. cbn.
  f_equal; [f_equal; lia | lia].
Qed.

Lemma clear_loop_ok (jobs : list Job) (n : nat) (w : World) :
  (∀ i, i < length jobs → faults w (length (journal w) + i) = false) →
  for_fold jobs n (clear_job false) w =
    (Return (n + length jobs), after_clearing jobs w).
Proof.
  revert n w. induction jobs as [|job rest IH]; intros n w Hf.
  - destruct w. unfold after_clearing. cbn.
    rewrite !Nat.add_0_r, !app_nil_r. reflexivity.
  - cbn [for_fold]. erewrite bind_Return; last first.
    { apply clear_job_ok. rewrite <- (Nat.add_0_r (length _)). apply Hf. cbn. lia. }
    rewrite IH.
    + rewrite after_clearing_cons. cbn. f_equal. f_equal. lia.
    + intros i Hi. cbn. rewrite length_app. cbn.
      rewrite <- Nat.add_assoc. apply Hf. cbn. lia.
Qed.

Lemma clear_loop_fault (pre : list Job) (job : Job) (post : list Job) (n : nat) (w : World) :
  (∀ i, i < length pre → faults w (length (journal w) + i) = false) →
  faults w (length (journal w) + length pre) = true →
  for_fold (pre ++ job :: post) n (clear_job false) w =
    (Raise DatabaseError,
     let w1 := after_clearing pre w in
     mkWorld (table w1) (clock w1) (S (ticks w1)) (faults w1)
             (journal w1 ++ [(id job, false)])
             (stdout w1 ++ [clearing_line job])).
Proof.
  revert n w. induction pre as [|p pre IH]; intros n w Hok Hbad.
  - cbn [app for_fold]. erewrite bind_Raise; last first.
    { apply clear_job_fault. by rewrite Nat.add_0_r in Hbad. }
    destruct w. unfold after_clearing. cbn.
    rewrite !Nat.add_0_r, !app_nil_r. reflexivity.
  - cbn [app for_fold]. erewrite bind_Return; last first.
    { apply clear_job_ok. rewrite <- (Nat.add_0_r (length _)). apply Hok. cbn. lia. }
    rewrite IH.
    + rewrite after_clearing_cons. reflexivity.
    + intros i Hi. cbn. rewrite length_app. cbn.
      rewrite <- Nat.add_assoc. apply Hok. cbn. lia.
    + cbn. rewrite length_app. cbn. rewrite <- Nat.add_assoc. exact Hbad.
Qed.

(** Either no write of the next [n] raises, or there is a first that does. *)
Lemma first_fault (f : nat → bool) (n : nat) :
  (∀ i, i < n → f i = false)
  ∨ ∃ k, k < n ∧ (∀ i, i < k → f i = false) ∧ f k = true.
Proof.
  induction n as [|n [IH|(k & Hk & Hlt & Hf)]].
  - left. lia.
  - destruct (f n) eqn:Hn.
    + right. exists n. auto.
    + left. intros i Hi. destruct (decide (i = n)) as [->|]; [done|]. apply IH. lia.
  - right. exists k. auto.
Qed.

(** ** Runs of [manual_clear_stuck] *)

Lemma manual_clear_stuck_overflow (chan : option string) (dry_arg : option bool)
    (w : World) (e : exn) :
  datetime_sub (clock w (ticks w)) (10 * US_PER_MINUTE)%Z = Raise e →
  manual_clear_stuck chan dry_arg w =
    (Raise e,
     mkWorld (table w) (clock w) (S (ticks w)) (faults w) (journal w)
       (stdout w ++ take 3 (preamble chan (default true dry_arg) 0%Z []))).
Proof.
  intros Hsub. unfold manual_clear_stuck.
  do 2 (erewrite bind_Return; [|reflexivity]).
  erewrite bind_Raise; [reflexivity|].
  rewrite debug_clear_stuck_logic_unfold. world_simpl. rewrite Hsub.
  rewrite <- !app_assoc. reflexivity.
Qed.

Lemma manual_clear_stuck_run (chan : option string) (dry_arg : option bool)
    (w : World) (c : datetime) :
  let dry_run := default true dry_arg in
  let now := clock w (ticks w) in
  datetime_sub now (10 * US_PER_MINUTE)%Z = Return c →
  manual_clear_stuck chan dry_arg w =
    match for_fold (all_stuck_at chan now (table w)) 0 (clear_job dry_run)
            (mkWorld (table w) (clock w) (S (ticks w)) (faults w) (journal w)
               (stdout w ++ preamble chan dry_run now (table w))) with
    | (Return n, w') => (Return n, with_stdout (stdout w' ++ [closing_line dry_run n]) w')
    | (Raise e, w') => (Raise e, w')
    end.
Proof.
  intros dry_run now Hsub. unfold manual_clear_stuck. fold dry_run.
  do 2 (erewrite bind_Return; [|reflexivity]).
  erewrite bind_Return; last first.
  { rewrite debug_clear_stuck_logic_unfold. world_simpl. fold now.
    rewrite Hsub. reflexivity. }
  cbn [fst snd]. fold (all_stuck_at chan now).
  erewrite bind_Return; [|reflexivity].
  erewrite bind_Return; [|reflexivity].
  erewrite bind_Return; [|reflexivity].
  world_simpl. unfold mbind at 1, M_bind at 1.
  rewrite <- !app_assoc.
  change (stdout w ++ _) with (stdout w ++ preamble chan dry_run now (table w)).
  destruct (for_fold _ _ _ _) as [[n|e] w']; [|done].
  unfold closing_line. destruct dry_run; reflexivity.
Qed.

(** ** Counting what a run printed and wrote *)

Lemma printed_since_app (w w' : World) (out : list Line) :
  stdout w' = stdout w ++ out → printed_since w w' = out.
Proof. intros H. unfold printed_since. rewrite H. apply drop_app_length. Qed.

Lemma written_since_app (w w' : World) (wr : list (string * bool)) :
  journal w' = journal w ++ wr → written_since w w' = wr.
Proof. intros H. unfold written_since. rewrite H. apply drop_app_length. Qed.

Lemma filter_clearing_lines (jobs : list Job) :
  filter is_clearing_line (clearing_line <$> jobs) = clearing_line <$> jobs.
Proof.
  induction jobs as [|job rest IH]; [done|].
  rewrite fmap_cons, filter_cons_True by done. by rewrite IH.
Qed.

Lemma filter_clearing_preamble (chan : option string) (dry_run : bool)
    (now : datetime) (t : list Job) :
  filter is_clearing_line (preamble chan dry_run now t) = [].
Proof. reflexivity. Qed.

Lemma filter_clearing_closing (dry_run : bool) (n : nat) :
  filter is_clearing_line [closing_line dry_run n] = [].
Proof. by destruct dry_run. Qed.

Lemma filter_failed_ok (jobs : list Job) :
  filter (λ e : string * bool, e.2 = false) ((λ j, (id j, true)) <$> jobs) = [].
Proof.
  induction jobs as [|job rest IH]; [done|].
  rewrite fmap_cons, filter_cons_False by done. exact IH.
Qed.

Lemma filter_cleared_ok (jobs : list Job) :
  filter (λ e : string * bool, e.2 = true) ((λ j, (id j, true)) <$> jobs)
  = (λ j, (id j, true)) <$> jobs.
Proof.
  induction jobs as [|job rest IH]; [done|].
  rewrite fmap_cons, filter_cons_True by done. by rewrite IH.
Qed.

(** ** Dry runs and the returned count *)

Lemma manual_clear_stuck_dry (chan : option string) (dry_arg : option bool) (w : World) :
  default true dry_arg = true →
  let now := clock w (ticks w) in
  manual_clear_stuck chan dry_arg w =
    match datetime_sub now (10 * US_PER_MINUTE)%Z with
    | Return _ =>
        let jobs := all_stuck_at chan now (table w) in
        (Return (length jobs),
         mkWorld (table w) (clock w) (S (ticks w)) (faults w) (journal w)
           (stdout w ++ preamble chan true now (table w)
              ++ (clearing_line <$> jobs) ++ [closing_line true (length jobs)]))
    | Raise e =>
        (Raise e,
         mkWorld (table w) (clock w) (S (ticks w)) (faults w) (journal w)
           (stdout w ++ take 3 (preamble chan true 0%Z [])))
    end.
Proof.
  intros Hdry now.
  destruct (datetime_sub now (10 * US_PER_MINUTE)%Z) as [c|e] eqn:Hsub.
  - rewrite (manual_clear_stuck_run chan dry_arg w c Hsub). fold now.
    rewrite Hdry, clear_loop_dry. world_simpl. cbn [Nat.add].
    by rewrite <- !app_assoc.
  - rewrite (manual_clear_stuck_overflow chan dry_arg w e Hsub). by rewrite Hdry.
Qed.

Lemma manual_clear_stuck_wet_ok (chan : option string) (w : World) (c : datetime) :
  let now := clock w (ticks w) in
  let jobs := all_stuck_at chan now (table w) in
  datetime_sub now (10 * US_PER_MINUTE)%Z = Return c →
  (∀ i, i < length jobs → faults w (length (journal w) + i) = false) →
  manual_clear_stuck chan (Some false) w =
    (Return (length jobs),
     mkWorld (cleared_table (clock w) (S (ticks w)) jobs (table w))
       (clock w) (S (ticks w) + length jobs) (faults w)
       (journal w ++ ((λ j, (id j, true)) <$> jobs))
       (stdout w ++ preamble chan false now (table w)
          ++ (clearing_line <$> jobs) ++ [closing_line false (length jobs)])).
Proof.
  intros now jobs Hsub Hok.
  rewrite (manual_clear_stuck_run chan (Some false) w c Hsub). fold now jobs.
  rewrite clear_loop_ok by exact Hok.
  unfold after_clearing. world_simpl. cbn [Nat.add default].
  by rewrite <- !app_assoc.
Qed.

Lemma manual_clear_stuck_wet_fault (chan : option string) (w : World) (c : datetime)
    (k : nat) (job : Job) :
  let now := clock w (ticks w) in
  let jobs := all_stuck_at chan now (table w) in
  datetime_sub now (10 * US_PER_MINUTE)%Z = Return c →
  jobs !! k = Some job →
  (∀ i, i < k → faults w (length (journal w) + i) = false) →
  faults w (length (journal w) + k) = true →
  manual_clear_stuck chan (Some false) w =
    (Raise DatabaseError,
     mkWorld (cleared_table (clock w) (S (ticks w)) (take k jobs) (table w))
       (clock w) (S (S (ticks w) + k)) (faults w)
       (journal w ++ ((λ j, (id j, true)) <$> take k jobs) ++ [(id job, false)])
       (stdout w ++ preamble chan false now (table w)
          ++ (clearing_line <$> take k jobs) ++ [clearing_line job])).
Proof.
  intros now jobs Hsub Hjob Hok Hbad.
  rewrite (manual_clear_stuck_run chan (Some false) w c Hsub). fold now jobs.
  assert (Hlen : length (take k jobs) = k).
  { apply length_take_le. apply lookup_lt_Some in Hjob. lia. }
  rewrite <- (take_drop_middle jobs k job Hjob) at 1.
  rewrite clear_loop_fault; cbn [journal]; rewrite ?Hlen; try done.
  unfold after_clearing. world_simpl. cbn [default]. rewrite Hlen.
  by rewrite <- !app_assoc.
Qed.

(** C3: a run of [manual_clear_stuck] with [dry_run] true leaves the table
    as it was (every field of every record) and requests no write; and in
    every run that returns, the count returned is the number of candidates
    the loop started on minus the number of writes that raised.  A dry run
    at a sane clock reading returns, as does a run that writes when no
    write raises; both return the number of candidates. *)
Theorem dry_run_frame_and_count (chan : option string) (dry_arg : option bool)
    (w : World) :
  let r := manual_clear_stuck chan dry_arg w in
  let jobs := all_stuck_at chan (clock w (ticks w)) (table w) in
  (default true dry_arg = true →
     table r.2 = table w ∧ journal r.2 = journal w)
  ∧ (∀ n, r.1 = Return n →
       attempted w r.2 = length jobs
       ∧ failed_writes w r.2 = 0
       ∧ n = attempted w r.2 - failed_writes w r.2)
  ∧ (sane_reading (clock w (ticks w)) →
     default true dry_arg = true
       ∨ (∀ i, i < length jobs → faults w (length (journal w) + i) = false) →
     r.1 = Return (length jobs)).
Proof.
  intros r jobs. subst r.
  set (now := clock w (ticks w)) in *.
  destruct (default true dry_arg) eqn:Hdry.
  - (* dry run *)
    pose proof (manual_clear_stuck_dry chan dry_arg w Hdry) as Hrun.
    cbn zeta in Hrun. fold now jobs in Hrun.
    split; [|split].
    + intros _. rewrite Hrun. by destruct (datetime_sub _ _).
    + intros n Hn. rewrite Hrun in Hn |- *.
      destruct (datetime_sub _ _); [|done].
      cbn [fst snd] in *. injection Hn as <-.
      unfold attempted, failed_writes.
      erewrite printed_since_app by reflexivity.
      erewrite (written_since_app _ _ []) by (cbn; by rewrite app_nil_r).
      rewrite !filter_app, filter_clearing_preamble, filter_clearing_lines,
        filter_clearing_closing, app_nil_r.
      cbn. rewrite length_fmap. lia.
    + intros Hsane _. rewrite Hrun.
      by rewrite (datetime_sub_sane now 10) by (done || lia).
  - (* a run that writes *)
    assert (dry_arg = Some false) as -> by (by destruct dry_arg as [[]|]).
    split; [done|].
    destruct (datetime_sub now (10 * US_PER_MINUTE)%Z) as [c|e] eqn:Hsub; last first.
    { rewrite (manual_clear_stuck_overflow chan (Some false) w e Hsub).
      split; [done|]. intros Hsane _.
      rewrite (datetime_sub_sane now 10) in Hsub by (done || lia). done. }
    destruct (first_fault (λ i, faults w (length (journal w) + i)) (length jobs))
      as [Hok|(k & Hk & Hok & Hbad)].
    + rewrite (manual_clear_stuck_wet_ok chan w c Hsub Hok). fold now jobs.
      split; [|done]. intros n [= <-]. cbn [snd].
      unfold attempted, failed_writes.
      erewrite printed_since_app by reflexivity.
      erewrite written_since_app by reflexivity.
      rewrite !filter_app, filter_clearing_preamble, filter_clearing_lines,
        filter_clearing_closing, app_nil_r, filter_failed_ok.
      cbn. rewrite length_fmap. lia.
    + destruct (lookup_lt_is_Some_2 jobs k Hk) as [job Hjob].
      rewrite (manual_clear_stuck_wet_fault chan w c k job Hsub Hjob Hok Hbad).
      split; [done|]. intros _ [[=]|Hnone].
      rewrite Hnone in Hbad by done. done.
Qed.

Lemma dry_run_frame_and_count_witness :
  let w := sample_world sample_table in
  let r := manual_clear_stuck None None w in
  (default true None = true ∧ table r.2 = table w ∧ journal r.2 = journal w)
  ∧ (r.1 = Return 2
     ∧ attempted w r.2 = 2 ∧ failed_writes w r.2 = 0
     ∧ 2 = attempted w r.2 - failed_writes w r.2)
  ∧ sane_reading (clock w (ticks w)).
Proof.
  intros w r.
  destruct (dry_run_frame_and_count None None w) as (Hframe & Hcount & Hret).
  assert (Hr : r.1 = Return 2).
  { apply (Hret sample_now_sane). left. reflexivity. }
  split; [|split].
  - split; [reflexivity|]. apply Hframe. reflexivity.
  - split; [exact Hr|].
    destruct (Hcount 2 Hr) as (Ha & Hf & Hn).
    split; [exact Ha|]. split; [exact Hf|]. exact Hn.
  - exact sample_now_sane.
Defined.

(** ** Writes of the clearing loop *)

Lemma elem_of_store (job : Job) (t : list Job) (r : Job) :
  r ∈ store job t ↔ r = job ∨ (r ∈ t ∧ id r ≠ id job).
Proof.
  unfold store. case_bool_decide as Hin.
  - rewrite list_elem_of_fmap. split.
    + intros (x & -> & Hx). destruct (decide (id x = id job)); auto.
    + intros [->|[Hr Hne]].
      * apply list_elem_of_fmap in Hin as (x & Hid & Hx).
        exists x. split; [|done]. by rewrite decide_True.
      * exists r. split; [|done]. by rewrite decide_False.
  - rewrite elem_of_app, list_elem_of_singleton. split.
    + intros [Hr | ->]; [|by left]. right. split; [done|].
      intros Heq. apply Hin. rewrite <- Heq. by apply list_elem_of_fmap_2.
    + tauto.
Qed.

Lemma cleared_table_elem (clk : nat → datetime) (jobs : list Job) (k : nat)
    (t : list Job) (r : Job) :
  r ∈ cleared_table clk k jobs t → r ∈ t ∨ status r = "failed".
Proof.
  revert k t. induction jobs as [|job rest IH]; intros k t; cbn; [auto|].
  intros [Hr|Hr]%IH; [|auto].
  apply elem_of_store in Hr as [->|[Hr _]]; auto.
Qed.

Lemma cleared_table_failed (clk : nat → datetime) (jobs : list Job) (k : nat)
    (t : list Job) (r : Job) :
  r ∈ cleared_table clk k jobs t → id r ∈ id <$> jobs → status r = "failed".
Proof.
  revert k t. induction jobs as [|job rest IH]; intros k t; cbn.
  - by intros _ ?%elem_of_nil.
  - intros Hr Hid. destruct (decide (id r ∈ id <$> rest)) as [Hrest|Hrest].
    { by eapply IH. }
    apply elem_of_cons in Hid as [Hid|Hid]; [|done].
    apply cleared_table_elem in Hr as [Hr|Hr]; [|done].
    apply elem_of_store in Hr as [->|[_ Hne]]; done.
Qed.

Lemma cleared_table_other (clk : nat → datetime) (jobs : list Job) (k : nat)
    (t : list Job) (r : Job) :
  r ∈ t → id r ∉ id <$> jobs → r ∈ cleared_table clk k jobs t.
Proof.
  revert k t. induction jobs as [|job rest IH]; intros k t; cbn; [done|].
  intros Hr Hid. apply not_elem_of_cons in Hid as [Hne Hid].
  apply IH; [|done]. apply elem_of_store. right. done.
Qed.

(** ** A write that raises *)

(** C4, as the code has it: [manual_clear_stuck] does not catch what
    [save] raises.  When the write for the candidate at position [k] is the
    first to raise, the exception leaves the routine and no count is
    returned; the candidates before it were written, the failing one is the
    last the loop started on, and the rows of all other keys are as they
    were. *)
Theorem persistence_failure_aborts (chan : option string) (w : World)
    (k : nat) (job : Job) :
  let now := clock w (ticks w) in
  let jobs := all_stuck_at chan now (table w) in
  let r := manual_clear_stuck chan (Some false) w in
  sane_reading now →
  jobs !! k = Some job →
  (∀ i, i < k → faults w (length (journal w) + i) = false) →
  faults w (length (journal w) + k) = true →
  r.1 = Raise DatabaseError
  ∧ written_since w r.2 = ((λ j, (id j, true)) <$> take k jobs) ++ [(id job, false)]
  ∧ attempted w r.2 = S k
  ∧ table r.2 = cleared_table (clock w) (S (ticks w)) (take k jobs) (table w)
  ∧ ∀ row, row ∈ table w → id row ∉ id <$> take k jobs → row ∈ table r.2.
Proof.
  intros now jobs r Hsane Hjob Hok Hbad. subst r.
  assert (Hsub := datetime_sub_sane now 10 Hsane ltac:(lia)).
  rewrite (manual_clear_stuck_wet_fault chan w _ k job Hsub Hjob Hok Hbad).
  fold now jobs. cbn [fst snd table].
  assert (Hlen : length (take k jobs) = k).
  { apply length_take_le. apply lookup_lt_Some in Hjob. lia. }
  split; [done|]. split; [by apply written_since_app|]. split.
  - unfold attempted. erewrite printed_since_app by reflexivity.
    rewrite !filter_app, filter_clearing_preamble, filter_clearing_lines.
    rewrite filter_cons_True by done.
    cbn. rewrite length_app, length_fmap, Hlen. cbn. lia.
  - split; [done|]. intros row Hrow Hid. by apply cleared_table_other.
Qed.

Lemma persistence_failure_aborts_witness :
  let w := faulty_world in
  let job := sample_job "a" "pending" (sample_now - 12 * US_PER_MINUTE)%Z None in
  let jobs := all_stuck_at None (clock w (ticks w)) (table w) in
  let r := manual_clear_stuck None (Some false) w in
  (sane_reading (clock w (ticks w))
   ∧ jobs !! 0 = Some job
   ∧ (∀ i, i < 0 → faults w (length (journal w) + i) = false)
   ∧ faults w (length (journal w) + 0) = true)
  ∧ r.1 = Raise DatabaseError
  ∧ written_since w r.2 = ((λ j, (id j, true)) <$> take 0 jobs) ++ [(id job, false)]
  ∧ attempted w r.2 = 1
  ∧ table r.2 = cleared_table (clock w) (S (ticks w)) (take 0 jobs) (table w)
  ∧ ∀ row, row ∈ table w → id row ∉ id <$> take 0 jobs → row ∈ table r.2.
Proof.
  intros w job jobs r.
  assert (H1 : sane_reading (clock w (ticks w))) by exact sample_now_sane.
  assert (H2 : jobs !! 0 = Some job) by reflexivity.
  assert (H3 : ∀ i, i < 0 → faults w (length (journal w) + i) = false)
    by (intros i Hi; lia).
  assert (H4 : faults w (length (journal w) + 0) = true) by reflexivity.
  split; [auto|].
  exact (persistence_failure_aborts None w 0 job H1 H2 H3 H4).
Defined.

(** C4, as the claim has it, fails: in the sample table the jobs "a" and
    "b" are to be cleared; when the write for "a" raises, the routine ends
    with the exception, "b" is neither started on nor written, and the
    only write requested is the one that raised. *)
Lemma persistence_failure_is_fatal :
  let w := faulty_world in
  let r := manual_clear_stuck None (Some false) w in
  id <$> all_stuck_at None (clock w (ticks w)) (table w) = ["a"; "b"]
  ∧ r.1 = Raise DatabaseError
  ∧ written_since w r.2 = [("a", false)]
  ∧ attempted w r.2 = 1
  ∧ table r.2 = table w
  ∧ ¬ (∀ i, i ∈ id <$> all_stuck_at None (clock w (ticks w)) (table w) →
         ∃ ok, (i, ok) ∈ written_since w r.2).
Proof.
  intros w r.
  assert (Hw : written_since w r.2 = [("a", false)]) by reflexivity.
  repeat split; try reflexivity.
  intros Hall. destruct (Hall "b") as [ok Hok].
  - change ("b" ∈ ["a"; "b"]). apply list_elem_of_further, list_elem_of_here.
  - rewrite Hw in Hok. apply list_elem_of_singleton in Hok. discriminate.
Qed.

(** ** Clearing twice *)

Lemma debug_clear_stuck_logic_Return (chan : option string) (w w' : World)
    (ps ex : QuerySet) :
  debug_clear_stuck_logic chan w = (Return (ps, ex), w') →
  ps = potentially_stuck_at chan (clock w (ticks w))
  ∧ ex = expired_jobs_at chan (clock w (ticks w))
  ∧ table w' = table w.
Proof.
  rewrite debug_clear_stuck_logic_unfold.
  destruct (datetime_sub _ _); intros [=]; subst; done.
Qed.

Lemma cleared_ids_app (w w' : World) (jobs : list Job) (tail : list (string * bool)) :
  journal w' = journal w ++ ((λ j, (id j, true)) <$> jobs) ++ tail →
  filter (λ e : string * bool, e.2 = true) tail = [] →
  cleared_ids w w' = id <$> jobs.
Proof.
  intros Hj Htail. unfold cleared_ids.
  erewrite written_since_app by exact Hj.
  rewrite filter_app, filter_cleared_ok, Htail, app_nil_r.
  rewrite <- list_fmap_compose. reflexivity.
Qed.

(** C5: after a run of [manual_clear_stuck] that writes, every row whose
    key was written has status failed, so a selection made afterwards, for
    any channel and at any clock reading, holds no row with such a key;
    when the run returns, the keys written are the keys of all the jobs it
    selected. *)
Theorem reclaim_idempotent (chan : option string) (w : World) :
  let r := manual_clear_stuck chan (Some false) w in
  let cleared := cleared_ids w r.2 in
  (∀ row, row ∈ table r.2 → id row ∈ cleared → status row = "failed")
  ∧ (∀ chan' potentially_stuck expired_jobs w2,
       debug_clear_stuck_logic chan' r.2
         = (Return (potentially_stuck, expired_jobs), w2) →
       ∀ row, row ∈ qunion potentially_stuck expired_jobs (table w2) →
              id row ∉ cleared)
  ∧ (∀ n, r.1 = Return n →
       cleared = id <$> all_stuck_at chan (clock w (ticks w)) (table w)
       ∧ n = length cleared).
Proof.
  intros r cleared.
  set (now := clock w (ticks w)).
  set (jobs := all_stuck_at chan now (table w)).
  assert (Hshape :
    (∃ done, cleared = id <$> done
       ∧ table r.2 = cleared_table (clock w) (S (ticks w)) done (table w)
       ∧ ∀ n, r.1 = Return n → done = jobs ∧ n = length jobs)).
  { subst r cleared.
    destruct (datetime_sub now (10 * US_PER_MINUTE)%Z) as [c|e] eqn:Hsub; last first.
    { rewrite (manual_clear_stuck_overflow chan (Some false) w e Hsub).
      exists []. split; [|done].
      apply (cleared_ids_app _ _ [] []); [|done]. cbn. by rewrite app_nil_r. }
    destruct (first_fault (λ i, faults w (length (journal w) + i)) (length jobs))
      as [Hok|(k & Hk & Hok & Hbad)].
    - rewrite (manual_clear_stuck_wet_ok chan w c Hsub Hok). fold now jobs.
      exists jobs. split; [|split; [done|]].
      + apply (cleared_ids_app _ _ jobs []); [|done]. cbn. by rewrite app_nil_r.
      + by intros n [= <-].
    - destruct (lookup_lt_is_Some_2 jobs k Hk) as [job Hjob].
      rewrite (manual_clear_stuck_wet_fault chan w c k job Hsub Hjob Hok Hbad).
      fold now jobs. exists (take k jobs). split; [|done].
      by apply (cleared_ids_app _ _ (take k jobs) [(id job, false)]). }
  destruct Hshape as (done & Hcleared & Htable & Hret).
  assert (Hfailed : ∀ row, row ∈ table r.2 → id row ∈ cleared → status row = "failed").
  { intros row Hrow Hid. rewrite Htable in Hrow. rewrite Hcleared in Hid.
    by eapply cleared_table_failed. }
  split; [exact Hfailed|]. split.
  - intros chan' ps ex w2 Hsel row Hrow Hid.
    apply debug_clear_stuck_logic_Return in Hsel as (-> & -> & Ht2).
    rewrite Ht2 in Hrow.
    apply (elem_of_all_stuck_at chan' _ (table r.2) row) in Hrow
      as ((Hin & _) & Hact & _).
    specialize (Hfailed row Hin Hid). rewrite Hfailed in Hact.
    destruct Hact; discriminate.
  - intros n Hn. destruct (Hret n Hn) as [-> ->].
    rewrite Hcleared, length_fmap. done.
Qed.

Lemma reclaim_idempotent_witness :
  let w := sample_world sample_table in
  let r := manual_clear_stuck None (Some false) w in
  let again := debug_clear_stuck_logic None r.2 in
  r.1 = Return 2
  ∧ cleared_ids w r.2 = ["a"; "b"]
  ∧ (∀ row, row ∈ table r.2 → id row ∈ cleared_ids w r.2 → status row = "failed")
  ∧ again.1 = Return (potentially_stuck_at None sample_now, expired_jobs_at None sample_now)
  ∧ ∀ row, row ∈ all_stuck_at None sample_now (table again.2) →
           id row ∉ cleared_ids w r.2.
Proof.
  intros w r again.
  destruct (reclaim_idempotent None w) as (Hfailed & Hsel & Hret).
  assert (Hr : r.1 = Return 2) by reflexivity.
  split; [exact Hr|]. split; [exact (proj1 (Hret 2 Hr))|].
  assert (Hagain : again.1 = Return (potentially_stuck_at None sample_now,
                                     expired_jobs_at None sample_now))
    by reflexivity.
  split; [exact Hfailed|]. split; [exact Hagain|].
  apply (Hsel None (potentially_stuck_at None sample_now)
              (expired_jobs_at None sample_now) again.2).
  rewrite <- Hagain. apply surjective_pairing.
Defined.

(** ** The listing of [debug_stuck_jobs] *)

#[global] Instance created_le_total : Total created_le.
Proof. intros a b. unfold created_le. lia. Qed.
#[global] Instance created_le_trans : Transitive created_le.
Proof. intros a b c. unfold created_le. lia. Qed.
#[global] Instance created_ge_total : Total created_ge.
Proof. intros a b. unfold created_ge. lia. Qed.
#[global] Instance created_ge_trans : Transitive created_ge.
Proof. intros a b c. unfold created_ge. lia. Qed.

Lemma with_stdout_id (w : World) : with_stdout (stdout w) w = w.
Proof. by destruct w. Qed.

Lemma print_seq {A} (l : Line) (k : M A) (out : list Line) (w : World) :
  (print l ;; k) (with_stdout out w) = k (with_stdout (out ++ [l]) w).
Proof. reflexivity. Qed.

Lemma print_job_details (job : Job) (w : World) {A} (k : M A) :
  (print [Lit "Job "; Str (id8 job); Lit "..."] ;;
   print [Lit "  Status: "; Str (status job)] ;;
   print [Lit "  Channel: "; Str (channel job)] ;;
   print [Lit "  Created: "; Time (created job)] ;;
   print [Lit "  Started: "; OptTime (started_at job)] ;;
   print [Lit "  Runner: "; OptStr (runner_id job)] ;;
   print [Lit "  Attempt: "; Int (attempt job)] ;;
   print [Lit "  Max Retries: "; Int (max_retries job)] ;;
   print [Lit "  Expires: "; OptTime (expires_at job)] ;;
   k) w
  = k (with_stdout (stdout w ++ job_details job) w).
Proof.
  rewrite <- (with_stdout_id w) at 1.
  rewrite !print_seq, <- !app_assoc. reflexivity.
Qed.

Lemma show_pending_job_expired (job : Job) (e : datetime) (w : World) :
  expires_at job = Some e → (e < clock w (ticks w))%Z →
  show_pending_job job w =
    (Return (),
     mkWorld (table w) (clock w) (S (ticks w)) (faults w) (journal w)
       (stdout w ++ job_details job ++ [EXPIRED; []])).
Proof.
  intros He Hlt. unfold show_pending_job. rewrite print_job_details.
  erewrite bind_Return; last first.
  { unfold has_expired. rewrite He. erewrite bind_Return; reflexivity. }
  world_simpl. rewrite bool_decide_eq_true_2 by done.
  erewrite bind_Return; [|reflexivity].
  unfold print. world_simpl. by rewrite <- !app_assoc.
Qed.

Lemma stale_verdict_run (job : Job) (w : World) :
  sane_reading (clock w (ticks w)) →
  (now ← timezone_now;
   d ← lift (timedelta_minutes 5);
   cutoff ← lift (datetime_sub now d);
   if bool_decide (created job < cutoff)%Z && String.eqb (status job) "pending"
   then print POSSIBLY_STUCK
   else print SEEMS_NORMAL) w
  = (Return (),
     mkWorld (table w) (clock w) (S (ticks w)) (faults w) (journal w)
       (stdout w ++ [stale_verdict (clock w (ticks w)) job])).
Proof.
  intros Hsane.
  erewrite bind_Return; [|reflexivity].
  erewrite bind_Return; [|unfold lift; by rewrite (timedelta_minutes_small 5) by lia].
  erewrite bind_Return; last first.
  { unfold lift. world_simpl. by rewrite (datetime_sub_sane _ 5) by (done || lia). }
  world_simpl. unfold stale_verdict.
  by destruct (bool_decide _ && _).
Qed.

Lemma show_pending_job_run (job : Job) (w : World) :
  clock_sane w →
  show_pending_job job w =
    (Return (),
     mkWorld (table w) (clock w) (verdict (clock w) (ticks w) job).2
       (faults w) (journal w)
       (stdout w ++ job_details job ++ [(verdict (clock w) (ticks w) job).1; []])).
Proof.
  intros Hsane. unfold show_pending_job. rewrite print_job_details.
  unfold verdict, has_expired. destruct (expires_at job) as [e|].
  - erewrite bind_Return; [|erewrite bind_Return; reflexivity].
    world_simpl. case_bool_decide.
    + erewrite bind_Return; [|reflexivity].
      unfold print. world_simpl. by rewrite <- !app_assoc.
    + erewrite bind_Return; [|apply stale_verdict_run; apply Hsane].
      unfold print. world_simpl. by rewrite <- !app_assoc.
  - erewrite bind_Return; [|reflexivity].
    erewrite bind_Return; [|apply stale_verdict_run; apply Hsane].
    unfold print. world_simpl. by rewrite <- !app_assoc.
Qed.

Lemma listing_run (jobs : list Job) (w : World) :
  clock_sane w →
  ∃ k, for_each jobs show_pending_job w =
    (Return (),
     mkWorld (table w) (clock w) k (faults w) (journal w)
       (stdout w ++ listing (clock w) (ticks w) jobs)).
Proof.
  revert w. induction jobs as [|job rest IH]; intros w Hsane.
  - exists (ticks w). destruct w. cbn. by rewrite app_nil_r.
  - cbn [for_each listing].
    erewrite bind_Return; [|by apply show_pending_job_run].
    edestruct IH as [k ->]; [exact Hsane|].
    exists k. cbn. by rewrite <- !app_assoc.
Qed.

Lemma verdict_is_verdict (clk : nat → datetime) (k : nat) (job : Job) :
  is_verdict (verdict clk k job).1.
Proof.
  unfold is_verdict, verdict, stale_verdict.
  destruct (expires_at job); repeat case_bool_decide; cbn;
    try destruct (String.eqb (status job) "pending"); cbn; auto.
Qed.

Lemma filter_verdict_listing (clk : nat → datetime) (jobs : list Job) (k : nat) :
  length (filter is_verdict (listing clk k jobs)) = length jobs.
Proof.
  revert k. induction jobs as [|job rest IH]; intros k; [done|].
  cbn [listing]. rewrite !filter_app.
  assert (Hd : filter is_verdict (job_details job) = []) by reflexivity.
  rewrite Hd, filter_cons_True by apply verdict_is_verdict.
  rewrite filter_cons_False by (intros [H|[H|H]]; discriminate).
  cbn. by rewrite IH.
Qed.

Lemma debug_stuck_jobs_run (chan : option string) (w : World) :
  clock_sane w →
  ∃ k, debug_stuck_jobs chan w =
    (Return (),
     mkWorld (table w) (clock w) k (faults w) (journal w)
       (stdout w ++
        [ [Lit "=== DEBUGGING STUCK JOBS"] ++ channel_suffix " FOR CHANNEL: " chan
            ++ [Lit " ==="];
          [Lit "Total pending jobs: "; Num (length (pending_jobs chan (table w)))] ]
        ++ listing (clock w) (ticks w) (take 10 (pending_jobs chan (table w))))).
Proof.
  intros Hsane. unfold debug_stuck_jobs.
  do 4 (erewrite bind_Return; [|reflexivity]).
  world_simpl.
  edestruct (listing_run (slice_to 10 (pending_jobs chan) (table w))) as [k ->];
    [|exists k; world_simpl; by rewrite <- !app_assoc].
  exact Hsane.
Qed.

Lemma pending_jobs_Permutation (chan : option string) (t : list Job) :
  pending_jobs chan t
  ≡ₚ filter (λ j, status j = "pending") (in_channel chan objects_all t).
Proof. unfold pending_jobs, order_by_created, qfilter. apply sort_by_Permutation. Qed.

(** C10: at a sane clock, [debug_stuck_jobs] prints its banner, the number
    of all pending jobs (of the channel, when one is given), and then the
    details and one verdict for each of the first ten of them in ascending
    order of creation and for no other job; with more than ten pending jobs
    the others are counted in the total and get no verdict. *)
Theorem stuck_listing_first_ten (chan : option string) (w : World) :
  clock_sane w →
  let all_pending :=
    filter (λ j, status j = "pending") (in_channel chan objects_all (table w)) in
  let ordered := pending_jobs chan (table w) in
  let listed := take 10 ordered in
  let r := debug_stuck_jobs chan w in
  r.1 = Return () ∧ table r.2 = table w
  ∧ ordered ≡ₚ all_pending
  ∧ StronglySorted created_le ordered
  ∧ printed_since w r.2 =
      [ [Lit "=== DEBUGGING STUCK JOBS"] ++ channel_suffix " FOR CHANNEL: " chan
          ++ [Lit " ==="];
        [Lit "Total pending jobs: "; Num (length all_pending)] ]
      ++ listing (clock w) (ticks w) listed
  ∧ length listed = min 10 (length all_pending)
  ∧ length (filter is_verdict (printed_since w r.2)) = min 10 (length all_pending)
  ∧ ∀ a b, a ∈ listed → b ∈ drop 10 ordered → (created a ≤ created b)%Z.
Proof.
  intros Hsane all_pending ordered listed r.
  destruct (debug_stuck_jobs_run chan w Hsane) as [k Hrun].
  fold ordered listed in Hrun.
  assert (Hperm : ordered ≡ₚ all_pending) by apply pending_jobs_Permutation.
  assert (Hlen : length ordered = length all_pending) by (by rewrite Hperm).
  assert (Hsorted : StronglySorted created_le ordered).
  { unfold ordered, pending_jobs, order_by_created.
    apply StronglySorted_sort_by; apply _. }
  assert (Hlisted : length listed = min 10 (length all_pending)).
  { unfold listed. by rewrite length_take, Hlen. }
  assert (Hout : printed_since w r.2 =
      [ [Lit "=== DEBUGGING STUCK JOBS"] ++ channel_suffix " FOR CHANNEL: " chan
          ++ [Lit " ==="];
        [Lit "Total pending jobs: "; Num (length all_pending)] ]
      ++ listing (clock w) (ticks w) listed).
  { apply printed_since_app. subst r. rewrite Hrun. cbn [snd stdout].
    by rewrite Hlen. }
  subst r. rewrite Hout. rewrite Hrun. cbn [fst snd table].
  repeat split; try done.
  - rewrite filter_app, length_app, filter_verdict_listing, Hlisted.
    rewrite !filter_cons_False, filter_nil; [done| |];
      intros [H|[H|H]]; discriminate.
  - intros a b Ha Hb.
    rewrite <- (take_drop 10 ordered) in Hsorted.
    by eapply (StronglySorted_app_1_elem_of created_le).
Qed.

Lemma twelve_pending_clock_sane : clock_sane (sample_world twelve_pending).
Proof. intros n. exact sample_now_sane. Defined.

Lemma stuck_listing_first_ten_witness :
  let w := sample_world twelve_pending in
  let r := debug_stuck_jobs None w in
  clock_sane w
  ∧ r.1 = Return ()
  ∧ length (filter (λ j, status j = "pending") (table w)) = 12
  ∧ length (take 10 (pending_jobs None (table w))) = 10
  ∧ length (filter is_verdict (printed_since w r.2)) = 10.
Proof.
  intros w r.
  destruct (stuck_listing_first_ten None w twelve_pending_clock_sane)
    as (Hret & _ & _ & _ & _ & Hlisted & Hverdicts & _).
  split; [exact twelve_pending_clock_sane|].
  split; [exact Hret|]. split; [reflexivity|].
  split; [exact Hlisted|exact Hverdicts].
Defined.

(** ** Expiry and the other verdicts *)

Lemma elem_of_pending_jobs (chan : option string) (t : list Job) (job : Job) :
  job ∈ pending_jobs chan t →
  job ∈ t ∧ status job = "pending" ∧ (truthy chan = true → Some (channel job) = chan).
Proof.
  rewrite pending_jobs_Permutation, list_elem_of_filter, elem_of_in_channel.
  unfold objects_all. tauto.
Qed.

(** C2, as the code has it: the jobs [debug_stuck_jobs] gives a verdict to
    are pending jobs, the first ten in ascending order of creation; for
    such a job whose expiry is set and earlier than the clock reading taken
    for it, the verdict is EXPIRED whatever its age, the test for a job
    pending too long is not reached, and the clock is read once. *)
Theorem expired_verdict_first (chan : option string) (t : list Job) (job : Job) :
  job ∈ slice_to 10 (pending_jobs chan) t →
  status job = "pending"
  ∧ ∀ (e : datetime) (w : World),
      expires_at job = Some e → (e < clock w (ticks w))%Z →
      let r := show_pending_job job w in
      r.1 = Return ()
      ∧ verdict (clock w) (ticks w) job = (EXPIRED, S (ticks w))
      ∧ printed_since w r.2 = job_details job ++ [EXPIRED; []]
      ∧ filter is_verdict (printed_since w r.2) = [EXPIRED]
      ∧ ticks r.2 = S (ticks w).
Proof.
  intros Hjob. split.
  { apply elem_of_take in Hjob as (i & Hi & _).
    apply list_elem_of_lookup_2, elem_of_pending_jobs in Hi. tauto. }
  intros e w He Hlt r. subst r.
  rewrite (show_pending_job_expired job e w He Hlt). cbn [fst snd ticks].
  assert (Hout : printed_since w
      (mkWorld (table w) (clock w) (S (ticks w)) (faults w) (journal w)
         (stdout w ++ job_details job ++ [EXPIRED; []]))
      = job_details job ++ [EXPIRED; []]) by (by apply printed_since_app).
  rewrite Hout. split; [done|]. split; [|done].
  unfold verdict. rewrite He. by rewrite bool_decide_eq_true_2.
Qed.

Lemma expired_verdict_first_witness :
  let job := sample_job "p" "pending" sample_now (Some (sample_now - 1)%Z) in
  let w := sample_world [job] in
  let r := show_pending_job job w in
  (job ∈ slice_to 10 (pending_jobs None) [job]
   ∧ expires_at job = Some (sample_now - 1)%Z
   ∧ (sample_now - 1 < clock w (ticks w))%Z)
  ∧ status job = "pending"
  ∧ r.1 = Return ()
  ∧ verdict (clock w) (ticks w) job = (EXPIRED, S (ticks w))
  ∧ printed_since w r.2 = job_details job ++ [EXPIRED; []]
  ∧ filter is_verdict (printed_since w r.2) = [EXPIRED]
  ∧ ticks r.2 = S (ticks w).
Proof.
  intros job w r.
  assert (H1 : job ∈ slice_to 10 (pending_jobs None) [job])
    by apply list_elem_of_here.
  assert (H2 : expires_at job = Some (sample_now - 1)%Z) by reflexivity.
  assert (H3 : (sample_now - 1 < clock w (ticks w))%Z) by reflexivity.
  destruct (expired_verdict_first None [job] job H1) as [Hst Hrun].
  split; [auto|]. split; [exact Hst|].
  exact (Hrun _ w H2 H3).
Defined.

(** C2, as the claim has it, fails for a running job: the listing takes
    pending jobs only, so a running job past its expiry gets no verdict. *)
Lemma running_expired_not_classified :
  let w := sample_world [running_expired_job] in
  let r := debug_stuck_jobs None w in
  is_active running_expired_job
  ∧ expires_before (clock w (ticks w)) running_expired_job
  ∧ r.1 = Return ()
  ∧ printed_since w r.2 =
      [ [Lit "=== DEBUGGING STUCK JOBS"; Lit " ==="];
        [Lit "Total pending jobs: "; Num 0] ]
  ∧ EXPIRED ∉ printed_since w r.2.
Proof.
  intros w r.
  assert (Hout : printed_since w r.2 =
      [ [Lit "=== DEBUGGING STUCK JOBS"; Lit " ==="];
        [Lit "Total pending jobs: "; Num 0] ]) by reflexivity.
  split; [by right|]. split; [reflexivity|]. split; [reflexivity|].
  split; [exact Hout|]. rewrite Hout.
  intros [H|[H|H%elem_of_nil]%elem_of_cons]%elem_of_cons; [discriminate..|done].
Qed.

(** ** Inspecting a job that is not there *)

Lemma objects_get_missing (job_id : string) (w : World) :
  job_id ∉ id <$> table w → objects_get job_id w = (Raise DoesNotExist, w).
Proof.
  intros Hmiss. unfold objects_get.
  assert (Hnil : filter (λ j, id j = job_id) (table w) = []).
  { apply elem_of_nil_inv. intros r [Heq Hr]%list_elem_of_filter.
    apply Hmiss. rewrite <- Heq. by apply list_elem_of_fmap_2. }
  by rewrite Hnil.
Qed.

(** C6, as the code has it: for a job id that no record of the table
    carries, [inspect_job] catches the [DoesNotExist] of the lookup, prints
    one line saying the job was not found and returns [None]; nothing is
    raised to the caller and the table is as it was. *)
Theorem inspect_missing_returns_none (job_id : string) (w : World) :
  job_id ∉ id <$> table w →
  inspect_job job_id w =
    (Return None,
     with_stdout (stdout w ++ [[Lit "❌ Job "; Str job_id; Lit " not found"]]) w).
Proof.
  intros Hmiss. unfold inspect_job, try_except, inspect_found.
  erewrite bind_Raise by (by apply objects_get_missing).
  rewrite decide_True by done. reflexivity.
Qed.

Lemma inspect_missing_returns_none_witness :
  let w := sample_world sample_table in
  ("zz" ∉ id <$> table w)
  ∧ inspect_job "zz" w =
      (Return None,
       with_stdout (stdout w ++ [[Lit "❌ Job "; Str "zz"; Lit " not found"]]) w).
Proof.
  intros w.
  assert (Hmiss : "zz" ∉ id <$> table w).
  { intros H. repeat (apply elem_of_cons in H as [H|H]; [discriminate|]).
    by apply elem_of_nil in H. }
  split; [exact Hmiss|]. exact (inspect_missing_returns_none "zz" w Hmiss).
Defined.

(** C6, as the claim has it, fails: the sample table has no job "zz", and
    inspecting it returns [None]; the outcome is not an exception. *)
Lemma inspect_missing_raises_nothing :
  let w := sample_world sample_table in
  let r := inspect_job "zz" w in
  ("zz" ∉ id <$> table w)
  ∧ r.1 = Return None
  ∧ ¬ ∃ e, r.1 = Raise e.
Proof.
  intros w r. split; [|split].
  - intros H. repeat (apply elem_of_cons in H as [H|H]; [discriminate|]).
    by apply elem_of_nil in H.
  - reflexivity.
  - intros [e He]. discriminate He.
Qed.

(** ** Old pending jobs, any configuration *)

Lemma age_loop_run (rows : list Job) (w : World) :
  ∃ k out,
    for_each rows (λ job,
      now ← timezone_now;
      print [Lit "Job "; Str (id8 job); Lit "... - "; Str (channel job);
             Lit " - pending for "; Minutes1f (now - created job); Lit " minutes"]) w
    = (Return (),
       mkWorld (table w) (clock w) k (faults w) (journal w) (stdout w ++ out)).
Proof.
  revert w. induction rows as [|job rest IH]; intros w.
  - exists (ticks w), []. destruct w. cbn. by rewrite app_nil_r.
  - cbn [for_each]. erewrite bind_Return; [|erewrite bind_Return; reflexivity].
    edestruct IH as (k & out & ->). world_simpl.
    eexists k, (_ :: out). by rewrite <- app_assoc.
Qed.

Lemma lift_bind {A B} (o : outcome A) (f : A → M B) (w : World) :
  (lift o ≫= f) w = match o with Return a => f a w | Raise e => (Raise e, w) end.
Proof. by destruct o. Qed.

Lemma timedelta_minutes_in_range (m : Z) :
  (- MAX_DATETIME ≤ m * US_PER_MINUTE ≤ MAX_DATETIME)%Z →
  timedelta_minutes m = Return (m * US_PER_MINUTE)%Z.
Proof.
  unfold timedelta_minutes, MAX_DATETIME, MAX_DELTA_DAYS, US_PER_DAY, US_PER_MINUTE.
  intros Hm. rewrite bool_decide_eq_false_2; [done|].
  assert (-3652060 ≤ (m * 60000000) `div` 86400000000 ≤ 3652059)%Z; [|lia].
  split.
  - apply Z.div_le_lower_bound; lia.
  - apply Z.lt_succ_r, Z.div_lt_upper_bound; lia.
Qed.

Lemma timedelta_minutes_outcome (m : Z) :
  timedelta_minutes m = Return (m * US_PER_MINUTE)%Z
  ∨ timedelta_minutes m = Raise OverflowError.
Proof. unfold timedelta_minutes. case_bool_decide; auto. Qed.

Lemma datetime_sub_outcome (t : datetime) (d : timedelta) :
  datetime_sub t d = Return (t - d)%Z ∨ datetime_sub t d = Raise OverflowError.
Proof. unfold datetime_sub. case_bool_decide; auto. Qed.

(** The query set [find_old_pending_jobs] returns for a cutoff *)
Lemma find_old_pending_jobs_unfold (minutes_arg : option Z) (chan : option string)
    (w : World) :
  let minutes := default 10%Z minutes_arg in
  let now := clock w (ticks w) in
  let jobs cutoff :=
    order_by_created
      (in_channel chan
         (qfilter (λ j, status j = "pending" ∧ (created j < cutoff)%Z) objects_all)) in
  match timedelta_minutes minutes with
  | Raise e => find_old_pending_jobs minutes_arg chan w
               = (Raise e, with_ticks (S (ticks w)) w)
  | Return d =>
      match datetime_sub now d with
      | Raise e => find_old_pending_jobs minutes_arg chan w
                   = (Raise e, with_ticks (S (ticks w)) w)
      | Return cutoff =>
          ∃ k out,
            find_old_pending_jobs minutes_arg chan w
            = (Return (jobs cutoff),
               mkWorld (table w) (clock w) k (faults w) (journal w)
                       (stdout w ++ out))
      end
  end.
Proof.
  intros minutes now jobs. unfold find_old_pending_jobs. fold minutes.
  erewrite bind_Return; [|reflexivity]. rewrite lift_bind.
  destruct (timedelta_minutes minutes) as [d|e]; [|done].
  rewrite lift_bind. world_simpl. fold now.
  destruct (datetime_sub now d) as [cutoff|e]; [|done].
  fold (jobs cutoff).
  do 4 (erewrite bind_Return; [|reflexivity]).
  match goal with |- context [mbind _ (for_each ?rows _) ?w'] =>
    destruct (age_loop_run rows w') as (k & out & Hloop) end.
  erewrite bind_Return; [|exact Hloop].
  world_simpl. eexists k, _. unfold mret, M_ret. by rewrite <- !app_assoc.
Qed.

(** C8, as the code has it: [find_old_pending_jobs] checks neither the
    threshold nor the channel.  Whenever the cutoff [now - minutes] is a
    date, for a negative [minutes] too, it returns the pending jobs (of the
    channel, when one is given) created before the cutoff, in ascending
    order of creation, and for a channel no job has it returns none.  The
    table is never changed. *)
Theorem find_old_pending_no_validation (minutes_arg : option Z)
    (chan : option string) (w : World) :
  let minutes := default 10%Z minutes_arg in
  let now := clock w (ticks w) in
  let cutoff := (now - minutes * US_PER_MINUTE)%Z in
  let r := find_old_pending_jobs minutes_arg chan w in
  table r.2 = table w
  ∧ ((0 ≤ now ≤ MAX_DATETIME)%Z → (0 ≤ cutoff ≤ MAX_DATETIME)%Z →
     ∃ jobs : QuerySet,
       r.1 = Return jobs
       ∧ ∀ t : list Job,
           (∀ job, job ∈ jobs t ↔
                   job ∈ t ∧ status job = "pending" ∧ (created job < cutoff)%Z
                   ∧ (truthy chan = true → Some (channel job) = chan))
           ∧ StronglySorted created_le (jobs t)
           ∧ (truthy chan = true → (∀ job, job ∈ t → Some (channel job) ≠ chan) →
              jobs t = [])).
Proof.
  intros minutes now cutoff r. subst r.
  pose proof (find_old_pending_jobs_unfold minutes_arg chan w) as Hrun.
  cbn zeta in Hrun. fold minutes now in Hrun.
  assert (Hmem : ∀ t job,
    job ∈ order_by_created
            (in_channel chan
               (qfilter (λ j, status j = "pending" ∧ (created j < cutoff)%Z)
                        objects_all)) t ↔
    job ∈ t ∧ status job = "pending" ∧ (created job < cutoff)%Z
    ∧ (truthy chan = true → Some (channel job) = chan)).
  { intros t job. unfold order_by_created.
    rewrite sort_by_Permutation, elem_of_in_channel.
    unfold qfilter, objects_all. rewrite list_elem_of_filter. tauto. }
  destruct (timedelta_minutes_outcome minutes) as [Hd|Hd]; rewrite Hd in Hrun;
    last first.
  { rewrite Hrun. cbn [fst snd]. split; [done|].
    intros Hnow Hcut. rewrite timedelta_minutes_in_range in Hd; [done|].
    unfold cutoff in Hcut. lia. }
  fold cutoff in Hrun.
  destruct (datetime_sub_outcome now (minutes * US_PER_MINUTE)%Z) as [Hs|Hs];
    fold cutoff in Hs; rewrite Hs in Hrun; last first.
  { rewrite Hrun. cbn [fst snd]. split; [done|].
    intros Hnow Hcut. unfold datetime_sub in Hs. fold cutoff in Hs.
    by rewrite bool_decide_eq_true_2 in Hs. }
  destruct Hrun as (k & out & ->). cbn [fst snd table].
  split; [done|]. intros _ _.
  eexists. split; [reflexivity|]. intros t.
  split; [apply Hmem|]. split.
  - unfold order_by_created. apply StronglySorted_sort_by; apply _.
  - intros Htruthy Hnone. apply elem_of_nil_inv. intros job Hjob.
    apply Hmem in Hjob as (Hin & _ & _ & Hchan).
    by apply (Hnone job Hin), Hchan.
Qed.

Lemma find_old_pending_no_validation_witness :
  let w := sample_world [fresh_pending_job] in
  let r := find_old_pending_jobs (Some (-5)%Z) None w in
  ((0 ≤ clock w (ticks w) ≤ MAX_DATETIME)%Z
   ∧ (0 ≤ clock w (ticks w) - (-5) * US_PER_MINUTE ≤ MAX_DATETIME)%Z)
  ∧ ∃ jobs : QuerySet,
      r.1 = Return jobs
      ∧ ∀ t : list Job,
          (∀ job, job ∈ jobs t ↔
                  job ∈ t ∧ status job = "pending"
                  ∧ (created job < sample_now - (-5) * US_PER_MINUTE)%Z
                  ∧ (truthy None = true → Some (channel job) = None))
          ∧ StronglySorted created_le (jobs t)
          ∧ (truthy None = true → (∀ job, job ∈ t → Some (channel job) ≠ None) →
             jobs t = []).
Proof.
  intros w r.
  assert (H1 : (0 ≤ clock w (ticks w) ≤ MAX_DATETIME)%Z)
    by (vm_compute; split; discriminate).
  assert (H2 : (0 ≤ clock w (ticks w) - (-5) * US_PER_MINUTE ≤ MAX_DATETIME)%Z)
    by (vm_compute; split; discriminate).
  split; [auto|].
  exact (proj2 (find_old_pending_no_validation (Some (-5)%Z) None w) H1 H2).
Defined.

(** C8, as the claim has it, fails: with the threshold -5 the routine
    returns, and lists a job created at the very moment of the call as
    pending for longer than the threshold; with a channel no job has it
    returns as well, an empty listing.  Neither call raises. *)
Lemma malformed_configuration_accepted :
  let w := sample_world [fresh_pending_job] in
  let r := find_old_pending_jobs (Some (-5)%Z) None w in
  let r' := find_old_pending_jobs None (Some "no-such-channel") w in
  (∃ jobs : QuerySet, r.1 = Return jobs ∧ jobs (table w) = [fresh_pending_job])
  ∧ (∃ jobs : QuerySet, r'.1 = Return jobs ∧ jobs (table w) = [])
  ∧ printed_since w r.2 =
      [ [Lit "=== JOBS PENDING > "; Int (-5); Lit " MINUTES"; Lit " ==="];
        [Lit "Found "; Num 1; Lit " jobs"];
        [Lit "Job "; Str "n"; Lit "... - "; Str "email"; Lit " - pending for ";
         Minutes1f 0; Lit " minutes"] ]
  ∧ ¬ (∃ e, r.1 = Raise e) ∧ ¬ (∃ e, r'.1 = Raise e).
Proof.
  intros w r r'.
  split; [eexists; split; reflexivity|].
  split; [eexists; split; reflexivity|].
  split; [reflexivity|].
  split; intros [e He]; discriminate He.
Qed.

(** ** The summary *)

Lemma for_each_print {A} (f : A → Line) (xs : list A) (w : World) :
  for_each xs (λ x, print (f x)) w
  = (Return (), with_stdout (stdout w ++ (f <$> xs)) w).
Proof.
  revert w. induction xs as [|x rest IH]; intros w.
  - destruct w. cbn. by rewrite app_nil_r.
  - cbn [for_each]. erewrite bind_Return; [|reflexivity].
    rewrite IH. world_simpl. cbn. by rewrite <- app_assoc.
Qed.

Lemma jobs_summary_run (chan : option string) (w : World) :
  jobs_summary chan w
  = (Return (), with_stdout (stdout w ++ summary_output chan (table w)) w).
Proof.
  unfold jobs_summary, summary_output.
  do 3 (erewrite bind_Return; [|reflexivity]).
  erewrite bind_Return; [|apply (for_each_print count_line)].
  destruct (truthy chan); cbn [negb].
  - do 3 (erewrite bind_Return; [|reflexivity]).
    rewrite (for_each_print recent_line).
    world_simpl. by rewrite <- !app_assoc.
  - erewrite bind_Return; last first.
    { do 2 (erewrite bind_Return; [|reflexivity]).
      apply (for_each_print count_line). }
    do 2 (erewrite bind_Return; [|reflexivity]).
    rewrite (for_each_print recent_line).
    world_simpl. by rewrite <- !app_assoc.
Qed.

Lemma string_le_iff (a b : string) :
  string_le a b ↔ a = b ∨ String_as_OT.lt a b.
Proof.
  unfold string_le, String.leb.
  destruct (String.compare a b) eqn:Hc.
  - apply String_as_OT.cmp_eq in Hc. tauto.
  - apply String_as_OT.cmp_lt in Hc. tauto.
  - split; [discriminate|]. intros [Heq|Hlt].
    + apply String_as_OT.cmp_eq in Heq. unfold String_as_OT.cmp in Heq. congruence.
    + apply String_as_OT.cmp_lt in Hlt. unfold String_as_OT.cmp in Hlt. congruence.
Qed.

#[global] Instance string_le_total : Total string_le.
Proof. intros a b. apply String.leb_total. Qed.

#[global] Instance string_le_trans : Transitive string_le.
Proof.
  intros a b c. rewrite !string_le_iff.
  intros [->|Hab] [->|Hbc]; auto.
  right. by eapply String_as_OT.lt_trans.
Qed.

Lemma values_count_keys (key : Job → string) (q : QuerySet) (t : list Job) :
  (values_count key q t).*1 = sort_by string_le (remove_dups (key <$> q t)).
Proof.
  unfold values_count. rewrite <- list_fmap_compose.
  induction (sort_by _ _) as [|k ks IH]; [done|]. cbn. by rewrite IH.
Qed.

Lemma elem_of_values_count (key : Job → string) (q : QuerySet) (t : list Job)
    (s : string) (n : nat) :
  (s, n) ∈ values_count key q t ↔
  (∃ job, job ∈ q t ∧ key job = s)
  ∧ n = length (filter (λ j, key j = s) (q t)).
Proof.
  unfold values_count. rewrite list_elem_of_fmap.
  setoid_rewrite sort_by_Permutation.
  setoid_rewrite elem_of_remove_dups.
  setoid_rewrite list_elem_of_fmap.
  split.
  - intros (k & [= -> ->] & job & -> & Hjob). eauto.
  - intros [(job & Hjob & <-) ->]. eauto.
Qed.

(** C7, as the code has it: [jobs_summary] prints one count for each status
    the jobs (of the channel, when one is given) have, the statuses in
    ascending order and each once, the count being the number of jobs with
    that status; then the most recently created jobs, at most five and all
    of them when there are fewer, in descending order of creation, every
    job left out created no later than every job listed.  The query names
    no second sort key: the order among jobs created at the same moment is
    the engine's, not one by id. *)
Theorem summary_counts_and_recent (chan : option string) (w : World) :
  let rows := in_channel chan objects_all (table w) in
  let counts := values_count status (in_channel chan objects_all) (table w) in
  let ordered := order_by_created_desc (in_channel chan objects_all) (table w) in
  let recent := slice_to 5 (order_by_created_desc (in_channel chan objects_all))
                         (table w) in
  let r := jobs_summary chan w in
  r.1 = Return () ∧ table r.2 = table w
  ∧ printed_since w r.2 = summary_output chan (table w)
  ∧ StronglySorted string_le counts.*1 ∧ NoDup counts.*1
  ∧ (∀ s n, (s, n) ∈ counts ↔
            (∃ job, job ∈ rows ∧ status job = s)
            ∧ n = length (filter (λ j, status j = s) rows))
  ∧ length recent = min 5 (length rows)
  ∧ recent = take 5 ordered
  ∧ ordered ≡ₚ rows
  ∧ StronglySorted created_ge ordered
  ∧ ∀ a b, a ∈ recent → b ∈ drop 5 ordered → (created b ≤ created a)%Z.
Proof.
  intros rows counts ordered recent r. subst r.
  rewrite jobs_summary_run. cbn [fst snd].
  assert (Hperm : ordered ≡ₚ rows) by apply sort_by_Permutation.
  assert (Hsorted : StronglySorted created_ge ordered)
    by (apply StronglySorted_sort_by; apply _).
  split; [done|]. split; [done|].
  split; [by apply printed_since_app|].
  unfold counts. rewrite values_count_keys.
  split; [apply StronglySorted_sort_by; apply _|].
  split; [rewrite sort_by_Permutation; apply NoDup_remove_dups|].
  split; [intros s n; apply elem_of_values_count|].
  split; [unfold recent, slice_to; fold ordered; by rewrite length_take, Hperm|].
  split; [done|]. split; [done|]. split; [done|].
  intros a b Ha Hb. rewrite <- (take_drop 5 ordered) in Hsorted.
  by eapply (StronglySorted_app_1_elem_of created_ge).
Qed.

(** C7, as the claim has it, fails on both counts: with one job in the
    table the list of recent jobs holds one job, not five; and with three
    jobs created at the same moment the list follows the order of the
    table: the same three records are listed "b", "a", "c" from one table,
    "c", "b", "a" from another and "a", "b", "c" from a third, so their
    order is not decided by their ids. *)
Lemma recent_jobs_not_five_nor_by_id :
  let recent := slice_to 5 (order_by_created_desc (in_channel None objects_all)) in
  let w := sample_world [fresh_pending_job] in
  recent [fresh_pending_job] = [fresh_pending_job]
  ∧ printed_since w (jobs_summary None w).2 =
      [ [Lit "=== JOBS SUMMARY"; Lit " ==="];
        [Lit "Status breakdown:"];
        [Lit "  "; Str "pending"; Lit ": "; Num 1];
        [Lit (NL +:+ "Channel breakdown:")];
        [Lit "  "; Str "email"; Lit ": "; Num 1];
        [Lit (NL +:+ "Most recent jobs:")];
        [Lit "  "; Str "n"; Lit "... - "; Str "pending"; Lit " - "; Str "email";
         Lit " - "; Time sample_now] ]
  ∧ created tie_a = created tie_b ∧ created tie_b = created tie_c
  ∧ id <$> recent [tie_b; tie_a; tie_c] = ["b"; "a"; "c"]
  ∧ id <$> recent [tie_c; tie_b; tie_a] = ["c"; "b"; "a"]
  ∧ id <$> recent [tie_a; tie_b; tie_c] = ["a"; "b"; "c"].
Proof. cbv zeta. repeat split; reflexivity. Qed.

(** * Further properties *)

(** ** Routines that only read *)

Lemma read_only_ret {A} (a : A) : read_only (mret a).
Proof. by intros w. Qed.

Lemma read_only_bind {A B} (m : M A) (f : A → M B) :
  read_only m → (∀ a, read_only (f a)) → read_only (m ≫= f).
Proof.
  intros Hm Hf w. unfold mbind, M_bind.
  destruct (Hm w) as (Ht & Hj & Hc & Hf').
  destruct (m w) as [[a|e] w1]; [|done].
  destruct (Hf a w1) as (Ht1 & Hj1 & Hc1 & Hf1). cbn [snd] in *.
  by rewrite Ht1, Hj1, Hc1, Hf1.
Qed.

Lemma read_only_print (l : Line) : read_only (print l).
Proof. by intros w. Qed.

Lemma read_only_now : read_only timezone_now.
Proof. by intros w. Qed.

Lemma read_only_lift {A} (o : outcome A) : read_only (lift o).
Proof. by intros w. Qed.

Lemma read_only_qcount {A} (q : Query A) : read_only (qcount q).
Proof. by intros w. Qed.

Lemma read_only_fetch {A} (q : Query A) : read_only (fetch q).
Proof. by intros w. Qed.

Lemma read_only_qexists {A} (q : Query A) : read_only (qexists q).
Proof. by intros w. Qed.

Lemma read_only_qfirst (q : QuerySet) : read_only (qfirst q).
Proof. by intros w. Qed.

Lemma read_only_objects_get (job_id : string) : read_only (objects_get job_id).
Proof. intros w. unfold objects_get. by destruct (filter _ _) as [|? [|? ?]]. Qed.

Lemma read_only_for_each {A} (xs : list A) (body : A → M unit) :
  (∀ x, read_only (body x)) → read_only (for_each xs body).
Proof.
  intros Hbody. induction xs as [|x rest IH]; cbn [for_each].
  - apply read_only_ret.
  - apply read_only_bind; [apply Hbody|]. intros _. exact IH.
Qed.

Lemma read_only_try_except {A} (m : M A) (e : exn) (h : M A) :
  read_only m → read_only h → read_only (try_except m e h).
Proof.
  intros Hm Hh w. unfold try_except.
  destruct (Hm w) as (Ht & Hj & Hc & Hf).
  destruct (m w) as [[a|e'] w1]; [done|].
  case_decide; [|done].
  destruct (Hh w1) as (Ht1 & Hj1 & Hc1 & Hf1). cbn [snd] in *.
  by rewrite Ht1, Hj1, Hc1, Hf1.
Qed.

Create HintDb frame discriminated.
#[global] Hint Resolve read_only_ret read_only_print read_only_now
  read_only_lift read_only_qcount read_only_fetch read_only_qexists
  read_only_qfirst read_only_objects_get : frame.

(** Walks through the binds, loops and branches of a routine. *)
Ltac frame_step :=
  first
    [ solve [auto with frame]
    | apply read_only_bind; [|intros ?]
    | apply read_only_for_each; intros ?
    | apply read_only_try_except
    | match goal with
      | |- read_only (if ?b then _ else _) => destruct b
      | |- read_only (match ?o with Some _ => _ | None => _ end) => destruct o
      end ].
Ltac frame := repeat frame_step.

Lemma read_only_debug_stuck_jobs (chan : option string) :
  read_only (debug_stuck_jobs chan).
Proof. unfold debug_stuck_jobs, show_pending_job, has_expired. frame. Qed.

Lemma read_only_debug_clear_stuck_logic (chan : option string) :
  read_only (debug_clear_stuck_logic chan).
Proof. unfold debug_clear_stuck_logic. frame. Qed.

Lemma read_only_inspect_job (job_id : string) : read_only (inspect_job job_id).
Proof. unfold inspect_job, inspect_found. frame. Qed.

Lemma read_only_jobs_summary (chan : option string) :
  read_only (jobs_summary chan).
Proof. unfold jobs_summary. frame. Qed.

Lemma read_only_find_old_pending_jobs (minutes_arg : option Z) (chan : option string) :
  read_only (find_old_pending_jobs minutes_arg chan).
Proof. unfold find_old_pending_jobs. frame. Qed.

(** X2: the diagnostic routines only read.  Whatever their arguments and
    whether they return or raise, [debug_stuck_jobs],
    [debug_clear_stuck_logic], [inspect_job], [jobs_summary] and
    [find_old_pending_jobs] leave the table as it was and request no
    write. *)
Theorem diagnostics_only_read (chan : option string) (job_id : string)
    (minutes_arg : option Z) (w : World) :
  let unchanged (w' : World) := table w' = table w ∧ written_since w w' = [] in
  unchanged (debug_stuck_jobs chan w).2
  ∧ unchanged (debug_clear_stuck_logic chan w).2
  ∧ unchanged (inspect_job job_id w).2
  ∧ unchanged (jobs_summary chan w).2
  ∧ unchanged (find_old_pending_jobs minutes_arg chan w).2.
Proof.
  intros unchanged.
  assert (Hro : ∀ {A} (m : M A), read_only m → unchanged (m w).2).
  { intros A m Hm. destruct (Hm w) as (Ht & Hj & _). split; [done|].
    apply written_since_app. by rewrite Hj, app_nil_r. }
  split; [apply Hro, read_only_debug_stuck_jobs|].
  split; [apply Hro, read_only_debug_clear_stuck_logic|].
  split; [apply Hro, read_only_inspect_job|].
  split; [apply Hro, read_only_jobs_summary|].
  apply Hro, read_only_find_old_pending_jobs.
Qed.

(** ** Inspecting a job that is there *)

Lemma objects_get_unique (job_id : string) (job : Job) (w : World) :
  filter (λ j, id j = job_id) (table w) = [job] →
  objects_get job_id w = (Return job, w).
Proof. intros H. unfold objects_get. by rewrite H. Qed.

Lemma filter_key_unique (t : list Job) (job : Job) :
  NoDup (id <$> t) → job ∈ t → filter (λ j, id j = id job) t = [job].
Proof.
  induction t as [|x t IH]; [by intros _ ?%elem_of_nil|].
  rewrite fmap_cons, NoDup_cons. intros [Hx Hkeys] [->|Hjob]%elem_of_cons.
  - rewrite filter_cons_True by done. f_equal.
    apply elem_of_nil_inv. intros r [Heq Hr]%list_elem_of_filter.
    apply Hx. rewrite <- Heq. by apply list_elem_of_fmap_2.
  - rewrite filter_cons_False; [by apply IH|].
    intros Heq. apply Hx. rewrite Heq. by apply list_elem_of_fmap_2.
Qed.

Lemma with_stdout_nil (w : World) : with_stdout (stdout w ++ []) w = w.
Proof. rewrite app_nil_r. apply with_stdout_id. Qed.

Lemma flag_expired_run (now : datetime) (job : Job) (w : World) :
  (if bool_decide (expires_before now job)
   then print [Lit "🚨 JOB HAS EXPIRED!"] else mret ()) w
  = (Return (),
     with_stdout
       (stdout w ++ (if decide (is_expired_at now job) then [HAS_EXPIRED] else [])) w).
Proof.
  unfold is_expired_at. case_bool_decide.
  - by rewrite decide_True.
  - rewrite decide_False by done. by rewrite with_stdout_nil.
Qed.

Lemma flag_pending_run (now : datetime) (job : Job) (w : World) :
  sane_reading now →
  (if String.eqb (status job) "pending"
   then d ← lift (timedelta_minutes 10);
        cutoff ← lift (datetime_sub now d);
        if bool_decide (created job < cutoff)%Z
        then print [Lit "⚠️ Job has been pending for over 10 minutes"]
        else mret ()
   else mret ()) w
  = (Return (),
     with_stdout
       (stdout w ++ (if decide (is_pending_too_long now job)
                     then [PENDING_TOO_LONG] else [])) w).
Proof.
  intros Hsane. unfold is_pending_too_long.
  destruct (String.eqb_spec (status job) "pending") as [Hst|Hst].
  - rewrite lift_bind, (timedelta_minutes_small 10) by lia.
    rewrite lift_bind, (datetime_sub_sane now 10) by (done || lia).
    case_bool_decide.
    + by rewrite decide_True.
    + rewrite decide_False by tauto. by rewrite with_stdout_nil.
  - rewrite decide_False by tauto. by rewrite with_stdout_nil.
Qed.

Lemma flag_running_run (now : datetime) (job : Job) (w : World) :
  sane_reading now →
  (if String.eqb (status job) "running"
   then match started_at job with
        | Some s =>
            d ← lift (timedelta_hours 1);
            cutoff ← lift (datetime_sub now d);
            if bool_decide (s < cutoff)%Z
            then print [Lit "⚠️ Job has been running for over 1 hour"]
            else mret ()
        | None => mret ()
        end
   else mret ()) w
  = (Return (),
     with_stdout
       (stdout w ++ (if decide (is_running_too_long now job)
                     then [RUNNING_TOO_LONG] else [])) w).
Proof.
  intros Hsane.
  destruct (decide (is_running_too_long now job)) as [Hr|Hr].
  - destruct Hr as [Hst (s & Hs & Hlt)].
    rewrite Hst, Hs. cbn [String.eqb Ascii.eqb Bool.eqb].
    unfold timedelta_hours.
    rewrite lift_bind, (timedelta_minutes_small (1 * 60)) by lia.
    rewrite lift_bind, (datetime_sub_sane now (1 * 60)) by (done || lia).
    by rewrite bool_decide_eq_true_2 by lia.
  - rewrite with_stdout_nil.
    destruct (String.eqb_spec (status job) "running") as [Hst|Hst]; [|done].
    destruct (started_at job) as [s|] eqn:Hs; [|done].
    unfold timedelta_hours.
    rewrite lift_bind, (timedelta_minutes_small (1 * 60)) by lia.
    rewrite lift_bind, (datetime_sub_sane now (1 * 60)) by (done || lia).
    rewrite bool_decide_eq_false_2; [done|].
    intros Hlt. apply Hr. split; [done|]. exists s. split; [done|]. lia.
Qed.

Lemma now_seq {A} (k : datetime → M A) (out : list Line) (w : World) :
  (timezone_now ≫= k) (with_stdout out w)
  = k (clock w (ticks w)) (with_stdout out (with_ticks (S (ticks w)) w)).
Proof. reflexivity. Qed.

Lemma inspect_found_run (job_id : string) (job : Job) (w : World) :
  let now := clock w (ticks w) in
  sane_reading now →
  filter (λ j, id j = job_id) (table w) = [job] →
  inspect_found job_id w =
    (Return (Some job),
     mkWorld (table w) (clock w) (S (ticks w)) (faults w) (journal w)
       (stdout w ++ inspection_details job_id job ++ inspection_flags now job)).
Proof.
  intros now Hsane Hget. unfold inspect_found.
  erewrite bind_Return; [|by apply objects_get_unique].
  rewrite <- (with_stdout_id w) at 1.
  rewrite !print_seq, now_seq. fold now.
  erewrite bind_Return; [|apply flag_expired_run].
  erewrite bind_Return; [|by apply flag_pending_run].
  erewrite bind_Return; [|by apply flag_running_run].
  unfold inspection_flags, inspection_details. world_simpl.
  unfold mret, M_ret. by rewrite <- !app_assoc.
Qed.

Lemma inspect_job_found (job_id : string) (job : Job) (w : World) :
  let now := clock w (ticks w) in
  sane_reading now →
  filter (λ j, id j = job_id) (table w) = [job] →
  inspect_job job_id w =
    (Return (Some job),
     mkWorld (table w) (clock w) (S (ticks w)) (faults w) (journal w)
       (stdout w ++ inspection_details job_id job ++ inspection_flags now job)).
Proof.
  intros now Hsane Hget. unfold inspect_job, try_except.
  by rewrite (inspect_found_run job_id job w Hsane Hget).
Qed.

Lemma not_flag_in_details (job_id : string) (job : Job) (l : Line) :
  l ∈ inspection_details job_id job →
  l ≠ HAS_EXPIRED ∧ l ≠ PENDING_TOO_LONG ∧ l ≠ RUNNING_TOO_LONG.
Proof.
  unfold inspection_details. intros H.
  repeat (apply elem_of_cons in H as [->|H]; [by repeat split|]).
  by apply elem_of_nil in H.
Qed.

(** X1: when the table's keys are distinct and the clock is sane,
    [inspect_job] on the id of a record returns that record, leaves the
    table as it was, and prints three flags that are independent of each
    other: the expiry flag exactly when the expiry is set and earlier than
    [now], the pending flag exactly when the status is pending and the
    record was created more than ten minutes before [now], the running
    flag exactly when the status is running and the start is set and more
    than an hour before [now].  An expired job that is also pending too
    long gets both flags. *)
Theorem inspect_job_reports_each_flag (job : Job) (w : World) :
  let now := clock w (ticks w) in
  let r := inspect_job (id job) w in
  let out := printed_since w r.2 in
  sane_reading now → NoDup (id <$> table w) → job ∈ table w →
  r.1 = Return (Some job) ∧ table r.2 = table w
  ∧ (HAS_EXPIRED ∈ out ↔ ∃ e, expires_at job = Some e ∧ (e < now)%Z)
  ∧ (PENDING_TOO_LONG ∈ out ↔
       status job = "pending" ∧ (created job < now - 10 * US_PER_MINUTE)%Z)
  ∧ (RUNNING_TOO_LONG ∈ out ↔
       status job = "running"
       ∧ ∃ s, started_at job = Some s ∧ (s < now - 60 * US_PER_MINUTE)%Z).
Proof.
  intros now r out Hsane Hkeys Hjob. subst out r.
  rewrite (inspect_job_found (id job) job w Hsane (filter_key_unique _ _ Hkeys Hjob)).
  fold now. cbn [fst snd table].
  erewrite printed_since_app by reflexivity.
  split; [done|]. split; [done|].
  assert (Hflags : ∀ l, l = HAS_EXPIRED ∨ l = PENDING_TOO_LONG ∨ l = RUNNING_TOO_LONG →
    (l ∈ inspection_details (id job) job ++ inspection_flags now job
     ↔ l ∈ inspection_flags now job)).
  { intros l Hl. rewrite elem_of_app. split; [|auto].
    intros [Hd|Hf]; [|done]. apply not_flag_in_details in Hd as (H1 & H2 & H3).
    by destruct Hl as [->|[->| ->]]. }
  rewrite !Hflags by auto. unfold inspection_flags.
  rewrite !elem_of_app.
  assert (Hexp : is_expired_at now job ↔ ∃ e, expires_at job = Some e ∧ (e < now)%Z).
  { unfold is_expired_at, expires_before. destruct (expires_at job) as [e|].
    - split; [eauto|]. by intros (e' & [= <-] & ?).
    - split; [done|]. by intros (e' & [=] & _). }
  rewrite <- Hexp. fold (is_pending_too_long now job) (is_running_too_long now job).
  repeat case_decide;
    rewrite ?list_elem_of_singleton, ?elem_of_nil;
    (split; [|split]); (split; [intros [H'|[H'|H']]; try done; try discriminate H'
                               | intros H'; try done; auto]).
Qed.

Lemma inspect_job_reports_each_flag_witness :
  let job := old_expired_job in
  let w := sample_world [job; running_expired_job] in
  let now := clock w (ticks w) in
  let r := inspect_job (id job) w in
  let out := printed_since w r.2 in
  (sane_reading now ∧ NoDup (id <$> table w) ∧ job ∈ table w)
  ∧ r.1 = Return (Some job) ∧ table r.2 = table w
  ∧ (HAS_EXPIRED ∈ out ↔ ∃ e, expires_at job = Some e ∧ (e < now)%Z)
  ∧ (PENDING_TOO_LONG ∈ out ↔
       status job = "pending" ∧ (created job < now - 10 * US_PER_MINUTE)%Z)
  ∧ (RUNNING_TOO_LONG ∈ out ↔
       status job = "running"
       ∧ ∃ s, started_at job = Some s ∧ (s < now - 60 * US_PER_MINUTE)%Z).
Proof.
  intros job w now r out.
  assert (H1 : sane_reading now) by exact sample_now_sane.
  assert (H2 : NoDup (id <$> table w)).
  { apply NoDup_cons. split.
    - intros [H|H%elem_of_nil]%elem_of_cons; [discriminate H|done].
    - apply NoDup_singleton. }
  assert (H3 : job ∈ table w) by apply list_elem_of_here.
  split; [auto|].
  exact (inspect_job_reports_each_flag job w H1 H2 H3).
Defined.

(** ** What a run that writes does to the table *)

Lemma id_mark_failed (now : datetime) (job : Job) : id (mark_failed now job) = id job.
Proof. reflexivity. Qed.

Lemma store_present (job : Job) (t : list Job) :
  id job ∈ id <$> t →
  store job t = (λ r, if decide (id r = id job) then job else r) <$> t.
Proof. intros Hin. unfold store. by rewrite bool_decide_eq_true_2. Qed.

Lemma store_keys (job : Job) (t : list Job) :
  id job ∈ id <$> t → id <$> store job t = id <$> t.
Proof.
  intros Hin. rewrite store_present by done. rewrite <- list_fmap_compose.
  apply list_fmap_ext. intros i r _. cbn. by case_decide.
Qed.

Lemma cleared_table_lookup (clk : nat → datetime) (jobs : list Job) :
  ∀ (k0 : nat) (t : list Job),
    NoDup (id <$> t) → NoDup (id <$> jobs) → (∀ j, j ∈ jobs → j ∈ t) →
    ∀ (i : nat) (row : Job), t !! i = Some row →
      (id row ∉ id <$> jobs → cleared_table clk k0 jobs t !! i = Some row)
      ∧ (∀ k, jobs !! k = Some row →
           cleared_table clk k0 jobs t !! i = Some (mark_failed (clk (k0 + k)) row)).
Proof.
  induction jobs as [|j rest IH]; intros k0 t Ht Hjobs Hsub i row Hrow.
  { cbn. split; [done|]. intros k Hk. by rewrite lookup_nil in Hk. }
  rewrite fmap_cons, NoDup_cons in Hjobs. destruct Hjobs as [Hj Hrest].
  assert (Hjt : j ∈ t) by (apply Hsub; left).
  assert (Hin : id (mark_failed (clk k0) j) ∈ id <$> t)
    by (rewrite id_mark_failed; by apply list_elem_of_fmap_2).
  set (t1 := store (mark_failed (clk k0) j) t).
  assert (Ht1 : NoDup (id <$> t1)) by (unfold t1; by rewrite store_keys).
  assert (Hsub1 : ∀ j', j' ∈ rest → j' ∈ t1).
  { intros j' Hj'. apply elem_of_store. right. split; [apply Hsub; by right|].
    rewrite id_mark_failed. intros Heq. apply Hj. rewrite <- Heq.
    by apply list_elem_of_fmap_2. }
  assert (Hrow1 : t1 !! i
    = Some (if decide (id row = id j) then mark_failed (clk k0) j else row)).
  { unfold t1. rewrite store_present by done.
    rewrite list_lookup_fmap, Hrow. reflexivity. }
  cbn [cleared_table]. fold t1.
  destruct (decide (id row = id j)) as [Hid|Hid].
  - assert (row = j) as ->.
    { apply (NoDup_keys_inj t); [done| |done|done].
      by eapply list_elem_of_lookup_2. }
    destruct (IH (S k0) t1 Ht1 Hrest Hsub1 i _ Hrow1) as [Hkeep _].
    rewrite id_mark_failed in Hkeep. specialize (Hkeep Hj).
    split.
    + intros Hnot. destruct Hnot. rewrite fmap_cons. left.
    + intros [|k] Hk.
      * by rewrite Nat.add_0_r.
      * destruct Hj. cbn in Hk. apply list_elem_of_lookup_2 in Hk.
        by apply list_elem_of_fmap_2.
  - destruct (IH (S k0) t1 Ht1 Hrest Hsub1 i _ Hrow1) as [Hkeep Hmark].
    split.
    + intros Hnot. apply Hkeep. intros Hr. apply Hnot. rewrite fmap_cons. by right.
    + intros [|k] Hk.
      * cbn in Hk. by injection Hk as ->.
      * cbn in Hk. rewrite (Hmark k Hk). do 3 f_equal. lia.
Qed.

Lemma cleared_table_length (clk : nat → datetime) (jobs : list Job) :
  ∀ (k0 : nat) (t : list Job),
    (∀ j, j ∈ jobs → id j ∈ id <$> t) →
    length (cleared_table clk k0 jobs t) = length t.
Proof.
  induction jobs as [|j rest IH]; intros k0 t Hsub; [done|]. cbn [cleared_table].
  assert (Hin : id (mark_failed (clk k0) j) ∈ id <$> t)
    by (rewrite id_mark_failed; apply Hsub; left).
  rewrite IH.
  - rewrite store_present by done. apply length_fmap.
  - intros j' Hj'. rewrite store_keys by done. apply Hsub. by right.
Qed.

Lemma all_stuck_at_keys (chan : option string) (now : datetime) (t : list Job) :
  NoDup (id <$> t) → NoDup (id <$> all_stuck_at chan now t).
Proof.
  intros Hkeys. apply NoDup_fmap_2_strong; [|apply NoDup_remove_dups].
  intros a b Ha%elem_of_all_stuck_at Hb%elem_of_all_stuck_at Hab.
  eapply (NoDup_keys_inj t); tauto.
Qed.

(** X3: when the table's keys are distinct, the clock is sane and no write
    raises, a run of [manual_clear_stuck] that writes returns the number of
    selected jobs and changes exactly their rows, in place: the row of the
    [k]-th selected job gets status failed, [finished_at] the clock reading
    taken for it and [last_error] "Cleared as stuck job", its other fields
    staying as they were; every row that was not selected is as it was, and
    no row is added or removed. *)
Theorem clearing_changes_selected_rows_only (chan : option string) (w : World) :
  let now := clock w (ticks w) in
  let jobs := all_stuck_at chan now (table w) in
  let r := manual_clear_stuck chan (Some false) w in
  sane_reading now → NoDup (id <$> table w) →
  (∀ i, i < length jobs → faults w (length (journal w) + i) = false) →
  r.1 = Return (length jobs)
  ∧ length (table r.2) = length (table w)
  ∧ ∀ i row, table w !! i = Some row →
      (row ∉ jobs → table r.2 !! i = Some row)
      ∧ (∀ k, jobs !! k = Some row →
           ∃ row', table r.2 !! i = Some row'
             ∧ status row' = "failed"
             ∧ finished_at row' = Some (clock w (S (ticks w) + k))
             ∧ last_error row' = Some "Cleared as stuck job"
             ∧ id row' = id row ∧ func row' = func row
             ∧ channel row' = channel row ∧ attempt row' = attempt row
             ∧ max_retries row' = max_retries row ∧ created row' = created row
             ∧ started_at row' = started_at row ∧ expires_at row' = expires_at row
             ∧ runner_id row' = runner_id row ∧ payload row' = payload row).
Proof.
  intros now jobs r Hsane Hkeys Hok. subst r.
  assert (Hsub := datetime_sub_sane now 10 Hsane ltac:(lia)).
  rewrite (manual_clear_stuck_wet_ok chan w _ Hsub Hok). fold now jobs.
  cbn [fst snd table].
  assert (Hin : ∀ j, j ∈ jobs → j ∈ table w).
  { intros j Hj%elem_of_all_stuck_at. tauto. }
  split; [done|]. split.
  { apply cleared_table_length. intros j Hj. by apply list_elem_of_fmap_2, Hin. }
  intros i row Hrow.
  destruct (cleared_table_lookup (clock w) jobs (S (ticks w)) (table w) Hkeys
              (all_stuck_at_keys chan now (table w) Hkeys) Hin i row Hrow)
    as [Hkeep Hmark].
  split.
  - intros Hnot. apply Hkeep. intros (j & Hid & Hj)%list_elem_of_fmap.
    apply Hnot. replace row with j; [done|].
    apply (NoDup_keys_inj (table w)); auto.
    by eapply list_elem_of_lookup_2.
  - intros k Hk. eexists. split; [exact (Hmark k Hk)|]. by repeat split.
Qed.

Lemma clearing_changes_selected_rows_only_witness :
  let w := sample_world sample_table in
  let now := clock w (ticks w) in
  let jobs := all_stuck_at None now (table w) in
  let r := manual_clear_stuck None (Some false) w in
  (sane_reading now ∧ NoDup (id <$> table w)
   ∧ (∀ i, i < length jobs → faults w (length (journal w) + i) = false))
  ∧ r.1 = Return 2
  ∧ length (table r.2) = 3
  ∧ status <$> table r.2 = ["failed"; "failed"; "finished"]
  ∧ table r.2 !! 2 = table w !! 2.
Proof.
  intros w now jobs r.
  assert (H1 : sane_reading now) by exact sample_now_sane.
  assert (H2 : NoDup (id <$> table w)).
  { repeat (apply NoDup_cons; split;
      [intros H; repeat (apply elem_of_cons in H as [H|H]; [discriminate H|]);
       by apply elem_of_nil in H|]).
    apply NoDup_nil_2. }
  assert (H3 : ∀ i, i < length jobs → faults w (length (journal w) + i) = false)
    by done.
  destruct (clearing_changes_selected_rows_only None w H1 H2 H3) as (Hr & Hlen & _).
  split; [auto|]. split; [exact Hr|]. split; [exact Hlen|].
  split; reflexivity.
Defined.

(** ** Counts of the selection *)

Lemma length_filter_or_and {A} (P Q : A → Prop)
    `{∀ x, Decision (P x)} `{∀ x, Decision (Q x)} (l : list A) :
  length (filter (λ x, P x ∨ Q x) l) + length (filter (λ x, P x ∧ Q x) l)
  = length (filter P l) + length (filter Q l).
Proof.
  induction l as [|x l IH]; [done|].
  rewrite !filter_cons.
  destruct (decide (P x)), (decide (Q x));
    repeat (case_decide; try tauto); cbn; lia.
Qed.

Lemma filter_iff_elem_of {A} (P Q : A → Prop)
    `{∀ x, Decision (P x)} `{∀ x, Decision (Q x)} (l : list A) :
  (∀ x, x ∈ l → (P x ↔ Q x)) → filter P l = filter Q l.
Proof.
  induction l as [|x l IH]; intros Hiff; [done|].
  rewrite !filter_cons.
  assert (Hx : P x ↔ Q x) by (apply Hiff; left).
  rewrite IH by (intros y Hy; apply Hiff; by right).
  destruct (decide (P x)), (decide (Q x)); tauto.
Qed.

Lemma NoDup_in_channel (chan : option string) (t : list Job) :
  NoDup t → NoDup (in_channel chan objects_all t).
Proof.
  intros Ht. unfold in_channel, qfilter, objects_all.
  destruct (truthy chan); [by apply NoDup_filter|done].
Qed.

Lemma all_stuck_at_count (chan : option string) (now : datetime) (t : list Job) :
  NoDup t →
  length (all_stuck_at chan now t)
  + length (filter (λ j, j ∈ expired_jobs_at chan now t)
                   (potentially_stuck_at chan now t))
  = length (potentially_stuck_at chan now t) + length (expired_jobs_at chan now t).
Proof.
  intros Hnd.
  set (rows := in_channel chan objects_all t).
  set (P := λ j : Job, is_active j ∧ (created j < now - 10 * US_PER_MINUTE)%Z).
  set (R := λ j : Job, expires_before now j ∧ is_active j).
  assert (Hrows : NoDup rows) by (by apply NoDup_in_channel).
  assert (Hunion : all_stuck_at chan now t ≡ₚ filter (λ j, P j ∨ R j) rows).
  { apply NoDup_Permutation; [apply NoDup_remove_dups|by apply NoDup_filter|].
    intros j. unfold all_stuck_at, qunion, potentially_stuck_at, expired_jobs_at,
      qfilter.
    rewrite elem_of_remove_dups, elem_of_app, !list_elem_of_filter.
    fold rows. subst P R. cbn. tauto. }
  assert (Hboth : filter (λ j, j ∈ expired_jobs_at chan now t)
                         (potentially_stuck_at chan now t)
                  = filter (λ j, P j ∧ R j) rows).
  { unfold potentially_stuck_at, expired_jobs_at, qfilter. fold rows.
    rewrite list_filter_filter. apply filter_iff_elem_of. intros j Hj.
    rewrite list_elem_of_filter. subst P R. cbn. tauto. }
  rewrite Hunion, Hboth. apply (length_filter_or_and P R rows).
Qed.

(** ** A dry run is a faithful preview *)

(** X8: at a sane clock and with a storage that does not fail, the count a
    dry run of [manual_clear_stuck] returns is the count the run that
    writes returns from the same world, the number of selected jobs, and
    both print the same "Clearing job" lines, one for each selected job in
    the same order. *)
Theorem dry_run_previews_real_run (chan : option string) (w : World) :
  let now := clock w (ticks w) in
  let jobs := all_stuck_at chan now (table w) in
  let dry := manual_clear_stuck chan (Some true) w in
  let wet := manual_clear_stuck chan (Some false) w in
  sane_reading now →
  (∀ i, i < length jobs → faults w (length (journal w) + i) = false) →
  dry.1 = Return (length jobs) ∧ wet.1 = dry.1
  ∧ filter is_clearing_line (printed_since w dry.2) = clearing_line <$> jobs
  ∧ filter is_clearing_line (printed_since w wet.2)
    = filter is_clearing_line (printed_since w dry.2).
Proof.
  intros now jobs dry wet Hsane Hok. subst dry wet.
  assert (Hsub := datetime_sub_sane now 10 Hsane ltac:(lia)).
  rewrite (manual_clear_stuck_wet_ok chan w _ Hsub Hok).
  rewrite (manual_clear_stuck_dry chan (Some true) w eq_refl).
  fold now jobs. rewrite Hsub. cbn [fst snd].
  erewrite !printed_since_app by reflexivity.
  rewrite !filter_app, !filter_clearing_preamble, !filter_clearing_lines,
    !filter_clearing_closing, !app_nil_r.
  done.
Qed.

Lemma dry_run_previews_real_run_witness :
  let w := sample_world sample_table in
  let now := clock w (ticks w) in
  let jobs := all_stuck_at None now (table w) in
  let dry := manual_clear_stuck None (Some true) w in
  let wet := manual_clear_stuck None (Some false) w in
  (sane_reading now
   ∧ ∀ i, i < length jobs → faults w (length (journal w) + i) = false)
  ∧ dry.1 = Return 2 ∧ wet.1 = dry.1
  ∧ filter is_clearing_line (printed_since w dry.2) = clearing_line <$> jobs
  ∧ filter is_clearing_line (printed_since w wet.2)
    = filter is_clearing_line (printed_since w dry.2).
Proof.
  intros w now jobs dry wet.
  assert (H1 : sane_reading now) by exact sample_now_sane.
  assert (H2 : ∀ i, i < length jobs → faults w (length (journal w) + i) = false)
    by done.
  split; [auto|].
  exact (dry_run_previews_real_run None w H1 H2).
Defined.

(** ** Selection over time *)

(** X9: a job selected for clearing stays selected.  When
    [debug_clear_stuck_logic] is run for the same channel at two clock
    readings, every row in the union selected at the earlier reading is in
    the union selected at the later one, over any table: only a change of
    the record itself takes a job out of the selection. *)
Theorem selection_grows_with_time (chan : option string) (w1 w2 w1' w2' : World)
    (ps1 ex1 ps2 ex2 : QuerySet) :
  debug_clear_stuck_logic chan w1 = (Return (ps1, ex1), w1') →
  debug_clear_stuck_logic chan w2 = (Return (ps2, ex2), w2') →
  (clock w1 (ticks w1) ≤ clock w2 (ticks w2))%Z →
  ∀ (t : list Job) (job : Job),
    job ∈ qunion ps1 ex1 t → job ∈ qunion ps2 ex2 t.
Proof.
  intros (-> & -> & _)%debug_clear_stuck_logic_Return
         (-> & -> & _)%debug_clear_stuck_logic_Return Hle t job.
  fold (all_stuck_at chan (clock w1 (ticks w1)))
       (all_stuck_at chan (clock w2 (ticks w2))).
  rewrite !elem_of_all_stuck_at.
  intros (Hin & Hact & [Hold|(e & He & Hlt)]).
  - split; [done|]. split; [done|]. left. lia.
  - split; [done|]. split; [done|]. right. exists e. split; [done|]. lia.
Qed.

Lemma selection_grows_with_time_witness :
  let w1 := sample_world sample_table in
  let w2 := mkWorld sample_table (λ _, sample_now + US_PER_MINUTE)%Z 0
                    (λ _, false) [] [] in
  let ps1 := potentially_stuck_at None sample_now in
  let ex1 := expired_jobs_at None sample_now in
  let ps2 := potentially_stuck_at None (sample_now + US_PER_MINUTE)%Z in
  let ex2 := expired_jobs_at None (sample_now + US_PER_MINUTE)%Z in
  (debug_clear_stuck_logic None w1
     = (Return (ps1, ex1), (debug_clear_stuck_logic None w1).2)
   ∧ debug_clear_stuck_logic None w2
     = (Return (ps2, ex2), (debug_clear_stuck_logic None w2).2)
   ∧ (clock w1 (ticks w1) ≤ clock w2 (ticks w2))%Z)
  ∧ ∀ (t : list Job) (job : Job),
      job ∈ qunion ps1 ex1 t → job ∈ qunion ps2 ex2 t.
Proof.
  intros w1 w2 ps1 ex1 ps2 ex2.
  assert (H1 : debug_clear_stuck_logic None w1
               = (Return (ps1, ex1), (debug_clear_stuck_logic None w1).2))
    by reflexivity.
  assert (H2 : debug_clear_stuck_logic None w2
               = (Return (ps2, ex2), (debug_clear_stuck_logic None w2).2))
    by reflexivity.
  assert (H3 : (clock w1 (ticks w1) ≤ clock w2 (ticks w2))%Z)
    by (vm_compute; discriminate).
  split; [auto|].
  exact (selection_grows_with_time None w1 w2 _ _ ps1 ex1 ps2 ex2 H1 H2 H3).
Defined.

(** ** Old pending jobs and the selection *)


Lemma elem_of_old_pending (chan : option string) (cutoff : datetime)
    (t : list Job) (job : Job) :
  job ∈ order_by_created
          (in_channel chan
             (qfilter (λ j, status j = "pending" ∧ (created j < cutoff)%Z)
                      objects_all)) t ↔
  job ∈ t ∧ status job = "pending" ∧ (created job < cutoff)%Z
  ∧ (truthy chan = true → Some (channel job) = chan).
Proof.
  unfold order_by_created.
  rewrite sort_by_Permutation, elem_of_in_channel.
  unfold qfilter, objects_all. rewrite list_elem_of_filter. tauto.
Qed.



(** ** The verdict for a job that has not expired *)

(** X7: at a sane clock, [show_pending_job] prints exactly one verdict for
    a pending job that is not past its expiry: POSSIBLY STUCK when the job
    was created more than five minutes before the clock reading used,
    "Seems normal" otherwise (a job created exactly five minutes before is
    normal).  A job without expiry costs one clock reading; for a job with
    an expiry not yet passed (an expiry equal to the reading has not
    passed) the clock is read a second time and the age is measured
    against that second reading. *)
Theorem pending_verdict_by_age (job : Job) (w : World) :
  let k := ticks w in
  let r := show_pending_job job w in
  let by_age (now : datetime) : Line :=
    if bool_decide (created job < now - 5 * US_PER_MINUTE)%Z
    then POSSIBLY_STUCK else SEEMS_NORMAL in
  clock_sane w → status job = "pending" →
  r.1 = Return ()
  ∧ (expires_at job = None →
       filter is_verdict (printed_since w r.2) = [by_age (clock w k)]
       ∧ ticks r.2 = S k)
  ∧ (∀ e, expires_at job = Some e → (clock w k ≤ e)%Z →
       filter is_verdict (printed_since w r.2) = [by_age (clock w (S k))]
       ∧ ticks r.2 = S (S k)).
Proof.
  intros k r by_age Hsane Hst. subst r.
  rewrite (show_pending_job_run job w Hsane). cbn [fst snd ticks].
  erewrite printed_since_app by reflexivity.
  assert (Hd : filter is_verdict (job_details job) = []) by reflexivity.
  assert (Hv : ∀ l, is_verdict l → filter is_verdict (job_details job ++ [l; []]) = [l]).
  { intros l Hl. rewrite filter_app, Hd, filter_cons_True by done.
    rewrite filter_cons_False; [done|]. intros [H|[H|H]]; discriminate. }
  assert (Hage : ∀ now, stale_verdict now job = by_age now).
  { intros now. unfold stale_verdict, by_age. rewrite Hst.
    by rewrite andb_true_r. }
  split; [done|]. fold k. unfold verdict. split.
  - intros ->. cbn [fst snd]. rewrite Hv by (rewrite Hage; unfold by_age, is_verdict;
      case_bool_decide; auto). by rewrite Hage.
  - intros e -> Hle. rewrite bool_decide_eq_false_2 by lia. cbn [fst snd].
    rewrite Hv by (rewrite Hage; unfold by_age, is_verdict;
      case_bool_decide; auto). by rewrite Hage.
Qed.

Lemma pending_verdict_by_age_witness :
  let job := sample_job "p" "pending" (sample_now - 5 * US_PER_MINUTE)%Z
               (Some sample_now) in
  let w := sample_world [job] in
  let r := show_pending_job job w in
  (clock_sane w ∧ status job = "pending"
   ∧ expires_at job = Some sample_now ∧ (clock w (ticks w) ≤ sample_now)%Z)
  ∧ r.1 = Return ()
  ∧ filter is_verdict (printed_since w r.2) = [SEEMS_NORMAL]
  ∧ ticks r.2 = 2.
Proof.
  intros job w r.
  assert (H1 : clock_sane w) by (intros n; exact sample_now_sane).
  assert (H2 : status job = "pending") by reflexivity.
  assert (H3 : expires_at job = Some sample_now) by reflexivity.
  assert (H4 : (clock w (ticks w) ≤ sample_now)%Z) by done.
  destruct (pending_verdict_by_age job w H1 H2) as (Hr & _ & Hsome).
  destruct (Hsome _ H3 H4) as [Hv Ht].
  split; [auto|]. split; [exact Hr|]. split; [exact Hv|exact Ht].
Defined.

(** ** The breakdowns of the summary *)

Lemma total_count_values_count (key : Job → string) (q : QuerySet) (t : list Job) :
  total_count (values_count key q t)
  = foldr (λ k acc, length (filter (λ j, key j = k) (q t)) + acc) 0
          (sort_by string_le (remove_dups (key <$> q t))).
Proof.
  unfold values_count. induction (sort_by _ _) as [|k ks IH]; [done|].
  cbn. by rewrite <- IH.
Qed.

Lemma sum_counts_Permutation (key : Job → string) (l : list Job) (ks ks' : list string) :
  ks ≡ₚ ks' →
  foldr (λ k acc, length (filter (λ j, key j = k) l) + acc) 0 ks
  = foldr (λ k acc, length (filter (λ j, key j = k) l) + acc) 0 ks'.
Proof.
  induction 1 as [|k ks ks' _ IH|k k' ks|ks ks' ks'' _ IH1 _ IH2]; cbn;
    first [lia | congruence].
Qed.

Lemma sum_counts_fresh (key : Job → string) (x : Job) (l : list Job) (ks : list string) :
  key x ∉ ks →
  foldr (λ k acc, length (filter (λ j, key j = k) (x :: l)) + acc) 0 ks
  = foldr (λ k acc, length (filter (λ j, key j = k) l) + acc) 0 ks.
Proof.
  induction ks as [|k ks IH]; [done|].
  intros [Hne Hks]%not_elem_of_cons. cbn [foldr].
  rewrite filter_cons_False by done. by rewrite IH.
Qed.

Lemma sum_counts (key : Job → string) (l : list Job) (ks : list string) :
  NoDup ks → (∀ j, j ∈ l → key j ∈ ks) →
  foldr (λ k acc, length (filter (λ j, key j = k) l) + acc) 0 ks = length l.
Proof.
  revert ks. induction l as [|x l IH]; intros ks Hnd Hcover.
  - clear. induction ks as [|k ks IHk]; [done|].
    cbn [foldr]. by rewrite IHk.
  - assert (Hx : key x ∈ ks) by (apply Hcover; left).
    apply elem_of_Permutation in Hx as [ks' Hperm].
    rewrite (sum_counts_Permutation key (x :: l) ks (key x :: ks') Hperm).
    rewrite Hperm in Hnd. apply NoDup_cons in Hnd as [Hfresh Hnd'].
    cbn [foldr]. rewrite filter_cons_True by done.
    rewrite sum_counts_fresh by done. cbn [length].
    rewrite <- (IH (key x :: ks')).
    + cbn. lia.
    + by apply NoDup_cons.
    + intros j Hj. rewrite <- Hperm. apply Hcover. by right.
Qed.

Lemma values_count_total (key : Job → string) (q : QuerySet) (t : list Job) :
  total_count (values_count key q t) = length (q t).
Proof.
  rewrite total_count_values_count. apply sum_counts.
  - rewrite sort_by_Permutation. apply NoDup_remove_dups.
  - intros j Hj. rewrite sort_by_Permutation, elem_of_remove_dups.
    by apply list_elem_of_fmap_2.
Qed.

(** X10: in [jobs_summary] the counts of the status breakdown add up to
    the number of jobs (of the channel, when one is given), as do those of
    the channel breakdown, and no count printed is zero; the channel
    breakdown is printed exactly when no channel is given (the empty
    string counts as none). *)
Theorem summary_counts_add_up (chan : option string) (w : World) :
  let rows := in_channel chan objects_all (table w) in
  let by_status := values_count status (in_channel chan objects_all) (table w) in
  let by_channel := values_count channel (in_channel chan objects_all) (table w) in
  let out := printed_since w (jobs_summary chan w).2 in
  total_count by_status = length rows
  ∧ total_count by_channel = length rows
  ∧ (∀ item, item ∈ by_status ∨ item ∈ by_channel → 1 ≤ item.2)
  ∧ ([Lit (NL +:+ "Channel breakdown:")] ∈ out ↔ truthy chan = false).
Proof.
  intros rows by_status by_channel out.
  split; [apply values_count_total|]. split; [apply values_count_total|].
  split.
  - assert (Hpos : ∀ key s n,
      (s, n) ∈ values_count key (in_channel chan objects_all) (table w) → 1 ≤ n).
    { intros key s n [(job & Hjob & Hkey) ->]%elem_of_values_count.
      assert (Hin : job ∈ filter (λ j, key j = s)
                             (in_channel chan objects_all (table w)))
        by (by apply list_elem_of_filter).
      destruct (filter _ _); [by apply elem_of_nil in Hin|cbn; lia]. }
    intros [s n] [H|H]; by eapply Hpos.
  - subst out. rewrite jobs_summary_run. cbn [snd].
    erewrite printed_since_app by reflexivity.
    unfold summary_output.
    assert (Hc : ∀ items : list (string * nat),
      [Lit (NL +:+ "Channel breakdown:")] ∉ count_line <$> items).
    { intros items (item & Heq & _)%list_elem_of_fmap. discriminate Heq. }
    assert (Hr : ∀ jobs : list Job,
      [Lit (NL +:+ "Channel breakdown:")] ∉ recent_line <$> jobs).
    { intros jobs (job & Heq & _)%list_elem_of_fmap. discriminate Heq. }
    destruct (truthy chan); cbn [negb].
    + split; [|done]. intros H.
      repeat first [ apply elem_of_app in H as [H|H]
                   | apply elem_of_cons in H as [H|H] ];
        try discriminate H;
        first [ by apply Hc in H | by apply Hr in H | by apply elem_of_nil in H ].
    + split; [done|]. intros _.
      apply elem_of_app. right. apply elem_of_app. right.
      apply elem_of_app. left. apply list_elem_of_here.
Qed.

(** ** Listing old pending jobs *)

Lemma age_loop_lines (rows : list Job) (w : World) :
  for_each rows (λ job,
    now ← timezone_now;
    print [Lit "Job "; Str (id8 job); Lit "... - "; Str (channel job);
           Lit " - pending for "; Minutes1f (now - created job); Lit " minutes"]) w
  = (Return (),
     mkWorld (table w) (clock w) (ticks w + length rows) (faults w) (journal w)
             (stdout w ++ age_lines (clock w) (ticks w) rows)).
Proof.
  revert w. induction rows as [|job rest IH]; intros w.
  - destruct w. cbn. by rewrite Nat.add_0_r, app_nil_r.
  - cbn [for_each]. erewrite bind_Return; [|erewrite bind_Return; reflexivity].
    rewrite IH. world_simpl. cbn [age_lines length].
    rewrite <- app_assoc. do 2 f_equal. lia.
Qed.

Lemma find_old_pending_jobs_run (m : Z) (chan : option string) (w : World) :
  let now := clock w (ticks w) in
  let rows := old_pending_at m chan now (table w) in
  sane_reading now → (0 ≤ m ≤ 60)%Z →
  find_old_pending_jobs (Some m) chan w =
    (Return (old_pending_at m chan now),
     mkWorld (table w) (clock w) (S (ticks w) + length rows) (faults w) (journal w)
       (stdout w ++ old_pending_output m chan (clock w) (S (ticks w)) rows)).
Proof.
  intros now rows Hsane Hm. unfold find_old_pending_jobs. cbv zeta.
  change (default 10%Z (Some m)) with m.
  erewrite bind_Return; [|reflexivity].
  rewrite lift_bind, (timedelta_minutes_small m) by done.
  rewrite lift_bind. world_simpl. fold now.
  rewrite (datetime_sub_sane now m) by done.
  fold (old_pending_at m chan now).
  do 4 (erewrite bind_Return; [|reflexivity]).
  erewrite bind_Return; [|apply age_loop_lines].
  world_simpl. fold rows. unfold mret, M_ret, old_pending_output.
  by rewrite <- !app_assoc.
Qed.

Lemma old_pending_at_sorted (m : Z) (chan : option string) (now : datetime)
    (t : list Job) :
  StronglySorted created_le (old_pending_at m chan now t).
Proof. unfold old_pending_at, order_by_created. apply StronglySorted_sort_by; apply _. Qed.




(** ** The quick check *)

Lemma quiet_ret {A} (a : A) : quiet (mret a : Q A).
Proof. intros w. split; [discriminate|done]. Qed.

Lemma quiet_bind {A B} (m : Q A) (f : A → Q B) :
  quiet m → (∀ a, quiet (f a)) → quiet (m ≫= f).
Proof.
  intros Hm Hf w. unfold mbind, Q_bind.
  destruct (Hm w) as (He & Ht & Hj).
  destruct (m w) as [[a|e] w1]; cbn [fst snd] in *.
  2: { split; [|done]. intros [= ->]. by apply He. }
  destruct (Hf a w1) as (He1 & Ht1 & Hj1).
  by rewrite Ht1, Hj1.
Qed.

Lemma quiet_call {A} (m : M A) : read_only m → quiet (call m).
Proof.
  intros Hm w. unfold call. destruct (Hm w) as (Ht & Hj & _).
  destruct (m w) as [[a|e] w1]; cbn [fst snd] in *; by repeat split.
Qed.

(** After [exists()] said yes, [first()] finds a row: no write comes
    between the two queries. *)
Lemma inspect_first_run (old_jobs : QuerySet) (w : World) :
  (has ← call (qexists old_jobs);
   if has : bool
   then call (print INSPECTING) ;;
        first ← call (qfirst old_jobs);
        match first with
        | Some job => call (inspect_job (id job)) ;; mret ()
        | None => attribute_error
        end
   else mret ()) w
  = match old_jobs (table w) with
    | [] => (Done (), w)
    | job :: _ =>
        (call (inspect_job (id job)) ;; mret ())
          (with_stdout (stdout w ++ [INSPECTING]) w)
    end.
Proof.
  unfold mbind at 1, Q_bind at 1, call at 1, qexists.
  destruct (old_jobs (table w)) as [|job rest] eqn:Hold.
  - by rewrite bool_decide_eq_false_2 by (by intros []).
  - rewrite bool_decide_eq_true_2 by done.
    unfold mbind at 1, Q_bind at 1, call at 1, print.
    unfold mbind at 1, Q_bind at 1, call at 1, qfirst. world_simpl.
    by rewrite Hold.
Qed.

Lemma quiet_inspect_first (old_jobs : QuerySet) :
  quiet (has ← call (qexists old_jobs);
         if has : bool
         then call (print INSPECTING) ;;
              first ← call (qfirst old_jobs);
              match first with
              | Some job => call (inspect_job (id job)) ;; mret ()
              | None => attribute_error
              end
         else mret ()).
Proof.
  intros w. rewrite inspect_first_run.
  destruct (old_jobs (table w)) as [|job rest]; [by repeat split|].
  exact (quiet_bind (call (inspect_job (id job))) (λ _, mret ())
           (quiet_call _ (read_only_inspect_job (id job))) (λ _, quiet_ret ())
           (with_stdout (stdout w ++ [INSPECTING]) w)).
Qed.

(** X6: [quick_debug] never ends in the [AttributeError] of
    [old_jobs.first().id]: [first()] is only asked after [exists()] said
    yes, over the same table.  And whatever its argument and its outcome,
    it changes no row of the table and requests no write. *)
Theorem quick_debug_is_quiet (channel_arg : option (option string)) (w : World) :
  let r := quick_debug channel_arg w in
  r.1 ≠ Failed AttributeError
  ∧ table r.2 = table w
  ∧ written_since w r.2 = [].
Proof.
  intros r.
  assert (Hq : quiet (quick_debug channel_arg)).
  { unfold quick_debug. cbv zeta.
    apply quiet_bind; [apply quiet_call, read_only_print|intros _].
    apply quiet_bind; [apply quiet_call, read_only_print|intros _].
    apply quiet_bind; [apply quiet_call, read_only_jobs_summary|intros _].
    apply quiet_bind; [apply quiet_call, read_only_print|intros _].
    apply quiet_bind; [apply quiet_call, read_only_find_old_pending_jobs|].
    intros old_jobs.
    apply quiet_bind; [apply quiet_call, read_only_print|intros _].
    apply quiet_inspect_first. }
  destruct (Hq w) as (He & Ht & Hj). fold r in He, Ht, Hj.
  split; [done|]. split; [done|].
  apply written_since_app. by rewrite Hj, app_nil_r.
Qed.

Lemma call_Return {A B} (m : M A) (f : A → Q B) (w w' : World) (a : A) :
  m w = (Return a, w') → (call m ≫= f) w = f a w'.
Proof. intros H. unfold mbind, Q_bind, call. by rewrite H. Qed.

Lemma print_run (l : Line) (w : World) :
  print l w = (Return (), with_stdout (stdout w ++ [l]) w).
Proof. reflexivity. Qed.

(** X12: at a sane clock and over a table with distinct keys,
    [quick_debug] runs to its end and prints, in this order: its two
    header lines, the summary of the channel, an empty line, the listing of
    the jobs pending for more than five minutes, an empty line and, when
    there is such a job, the inspection of the first listed, which is a
    pending job created no later than any other listed; when there is
    none, nothing is inspected. *)
Theorem quick_debug_inspects_oldest (channel_arg : option (option string))
    (w : World) :
  let chan := default (Some "email") channel_arg in
  let old := old_pending_at 5 chan (clock w (ticks w)) (table w) in
  let r := quick_debug channel_arg w in
  clock_sane w → NoDup (id <$> table w) →
  r.1 = Done ()
  ∧ printed_since w r.2 =
      [ [Lit "🔍 QUICK DEBUG FOR CHANNEL: "; OptStr chan]; [Lit (repeat_eq 50)] ]
      ++ summary_output chan (table w) ++ [[]]
      ++ old_pending_output 5 chan (clock w) (S (ticks w)) old ++ [[]]
      ++ match old with
         | [] => []
         | job :: _ =>
             INSPECTING :: inspection_details (id job) job
               ++ inspection_flags (clock w (S (ticks w) + length old)) job
         end
  ∧ match old with
    | [] => True
    | job :: _ =>
        status job = "pending" ∧ ∀ j, j ∈ old → (created job ≤ created j)%Z
    end.
Proof.
  intros chan old r Hsane Hkeys. subst r. unfold quick_debug. fold chan.
  erewrite call_Return; [|apply print_run].
  erewrite call_Return; [|apply print_run].
  erewrite call_Return; [|apply jobs_summary_run]. 
  erewrite call_Return; [|apply print_run].
  world_simpl.
  erewrite call_Return; last first.
  { apply (find_old_pending_jobs_run 5 chan); [apply Hsane|lia]. }
  world_simpl. fold old.
  erewrite call_Return; [|apply print_run].
  rewrite inspect_first_run. world_simpl. fold old.
  assert (Hold : ∀ j, j ∈ old → j ∈ table w ∧ status j = "pending").
  { intros j Hj. apply elem_of_old_pending in Hj. tauto. }
  destruct old as [|job rest] eqn:Hrows.
  - split; [done|]. split; [|done].
    apply printed_since_app. cbn [snd stdout].
    rewrite <- !app_assoc. cbn [app]. reflexivity.
  - assert (Hjob : job ∈ table w ∧ status job = "pending") by (apply Hold; left).
    destruct Hjob as [Hjob Hst].
    erewrite call_Return; last first.
    { apply inspect_job_found; [apply Hsane|].
      world_simpl. by apply filter_key_unique. }
    world_simpl. split; [done|]. split.
    + apply printed_since_app. cbn [snd stdout].
      rewrite <- !app_assoc. cbn [app]. reflexivity.
    + split; [done|]. intros j [->|Hj]%elem_of_cons; [done|].
      pose proof (old_pending_at_sorted 5 chan (clock w (ticks w)) (table w)) as Hs.
      fold old in Hs. rewrite Hrows in Hs.
      apply StronglySorted_cons in Hs as [Hall _].
      by apply (proj1 (Forall_forall _ _) Hall).
Qed.

Lemma sample_table_keys : NoDup (id <$> sample_table).
Proof.
  repeat (apply NoDup_cons; split;
    [intros H; repeat (apply elem_of_cons in H as [H|H]; [discriminate H|]);
     by apply elem_of_nil in H|]).
  apply NoDup_nil_2.
Defined.

Lemma quick_debug_inspects_oldest_witness :
  let w := sample_world sample_table in
  let chan := default (Some "email") None in
  let old := old_pending_at 5 chan (clock w (ticks w)) (table w) in
  let r := quick_debug None w in
  (clock_sane w ∧ NoDup (id <$> table w))
  ∧ id <$> old = ["a"]
  ∧ r.1 = Done ()
  ∧ printed_since w r.2 =
      [ [Lit "🔍 QUICK DEBUG FOR CHANNEL: "; OptStr chan]; [Lit (repeat_eq 50)] ]
      ++ summary_output chan (table w) ++ [[]]
      ++ old_pending_output 5 chan (clock w) (S (ticks w)) old ++ [[]]
      ++ match old with
         | [] => []
         | job :: _ =>
             INSPECTING :: inspection_details (id job) job
               ++ inspection_flags (clock w (S (ticks w) + length old)) job
         end
  ∧ match old with
    | [] => True
    | job :: _ =>
        status job = "pending" ∧ ∀ j, j ∈ old → (created job ≤ created j)%Z
    end.
Proof.
  intros w chan old r.
  assert (H1 : clock_sane w) by (intros n; exact sample_now_sane).
  assert (H2 : NoDup (id <$> table w)) by exact sample_table_keys.
  split; [auto|]. split; [reflexivity|].
  exact (quick_debug_inspects_oldest None w H1 H2).
Defined.

(** ** Finished jobs are never touched *)

(** X13: over a table with distinct keys, no run of [manual_clear_stuck],
    dry or not, returning or raising, at any clock reading and whatever
    writes fail, changes a record whose status is neither pending nor
    running: a finished or failed job is never rewritten. *)
Theorem terminal_jobs_are_never_rewritten (chan : option string)
    (dry_arg : option bool) (w : World) (row : Job) :
  let r := manual_clear_stuck chan dry_arg w in
  NoDup (id <$> table w) → row ∈ table w →
  status row ≠ "pending" → status row ≠ "running" →
  row ∈ table r.2.
Proof.
  intros r Hkeys Hrow Hp Hr. subst r.
  set (now := clock w (ticks w)).
  set (jobs := all_stuck_at chan now (table w)).
  assert (Hother : ∀ done : list Job,
    (∀ j, j ∈ done → j ∈ jobs) → id row ∉ id <$> done).
  { intros done Hsub (j & Hid & Hj)%list_elem_of_fmap.
    apply Hsub, elem_of_all_stuck_at in Hj as ((Hjt & _) & Hact & _).
    assert (row = j) as -> by (by apply (NoDup_keys_inj (table w))).
    destruct Hact; contradiction. }
  destruct (default true dry_arg) eqn:Hdry.
  { rewrite (manual_clear_stuck_dry chan dry_arg w Hdry). cbn zeta.
    by destruct (datetime_sub _ _). }
  assert (dry_arg = Some false) as -> by (by destruct dry_arg as [[]|]).
  destruct (datetime_sub now (10 * US_PER_MINUTE)%Z) as [c|e] eqn:Hsub; last first.
  { by rewrite (manual_clear_stuck_overflow chan (Some false) w e Hsub). }
  destruct (first_fault (λ i, faults w (length (journal w) + i)) (length jobs))
    as [Hok|(k & Hk & Hok & Hbad)].
  - rewrite (manual_clear_stuck_wet_ok chan w c Hsub Hok). cbn [snd table].
    apply cleared_table_other; [done|]. by apply Hother.
  - destruct (lookup_lt_is_Some_2 jobs k Hk) as [job Hjob].
    rewrite (manual_clear_stuck_wet_fault chan w c k job Hsub Hjob Hok Hbad).
    cbn [snd table]. apply cleared_table_other; [done|].
    apply Hother. intros j (i & Hi & _)%elem_of_take.
    by eapply list_elem_of_lookup_2.
Qed.

Lemma terminal_jobs_are_never_rewritten_witness :
  let row := sample_job "c" "finished" 0%Z None in
  (NoDup (id <$> table faulty_world) ∧ row ∈ table faulty_world
   ∧ status row ≠ "pending" ∧ status row ≠ "running")
  ∧ row ∈ table (manual_clear_stuck None (Some false) faulty_world).2.
Proof.
  intros row.
  assert (H1 : NoDup (id <$> table faulty_world)) by exact sample_table_keys.
  assert (H2 : row ∈ table faulty_world)
    by apply list_elem_of_further, list_elem_of_further, list_elem_of_here.
  assert (H3 : status row ≠ "pending") by discriminate.
  assert (H4 : status row ≠ "running") by discriminate.
  split; [auto|].
  exact (terminal_jobs_are_never_rewritten None (Some false) faulty_world row
           H1 H2 H3 H4).
Defined.

(** * The selection inside [manual_clear_stuck], and calls with any value *)

(** ** What every run at a sane clock prints first *)

Lemma manual_clear_stuck_prints_preamble (chan : option string)
    (dry_arg : option bool) (w : World) :
  let now := clock w (ticks w) in
  let r := manual_clear_stuck chan dry_arg w in
  sane_reading now →
  ∃ rest, printed_since w r.2
          = preamble chan (default true dry_arg) now (table w) ++ rest.
Proof.
  intros now r Hsane. subst r.
  assert (Hsub := datetime_sub_sane now 10 Hsane ltac:(lia)).
  set (jobs := all_stuck_at chan now (table w)).
  destruct (default true dry_arg) eqn:Hdry.
  { rewrite (manual_clear_stuck_dry chan dry_arg w Hdry). fold now. rewrite Hsub.
    eexists. by apply printed_since_app. }
  assert (dry_arg = Some false) as -> by (by destruct dry_arg as [[]|]).
  destruct (first_fault (λ i, faults w (length (journal w) + i)) (length jobs))
    as [Hok|(k & Hk & Hok & Hbad)].
  - rewrite (manual_clear_stuck_wet_ok chan w _ Hsub Hok).
    eexists. by apply printed_since_app.
  - destruct (lookup_lt_is_Some_2 jobs k Hk) as [job Hjob].
    rewrite (manual_clear_stuck_wet_fault chan w _ k job Hsub Hjob Hok Hbad).
    eexists. by apply printed_since_app.
Qed.

(** C1: the jobs [manual_clear_stuck] works on are the union of the two
    query sets [debug_clear_stuck_logic] returns.  With [now] the clock
    reading taken there, a row of a table (of the channel, when one is
    given) is in that union if and only if its status is pending or running
    and it was created more than ten minutes before [now] or has an expiry
    earlier than [now]; the union holds no row twice, and no key twice when
    the keys of the table are distinct.  The routine announces the size of
    this union over its table as "Total jobs to clear"; in a dry run, and in
    a run that writes when no write raises, it returns that size and prints
    one "Clearing job" line for each row of the union, and the run that
    writes requests one write for each, in the same order. *)
Theorem reclaim_candidates_union (chan : option string) (dry_arg : option bool)
    (w : World) :
  let now := clock w (ticks w) in
  let r := manual_clear_stuck chan dry_arg w in
  sane_reading now →
  ∃ potentially_stuck expired_jobs w',
    debug_clear_stuck_logic chan w = (Return (potentially_stuck, expired_jobs), w')
    ∧ table w' = table w
    ∧ (∀ t : list Job,
         let all_stuck := qunion potentially_stuck expired_jobs t in
         (∀ r : Job,
            r ∈ all_stuck ↔
            (r ∈ t ∧ (truthy chan = true → Some (channel r) = chan))
            ∧ (status r = "pending" ∨ status r = "running")
            ∧ ((created r < now - 10 * US_PER_MINUTE)%Z
               ∨ ∃ e, expires_at r = Some e ∧ (e < now)%Z))
         ∧ NoDup all_stuck
         ∧ (NoDup (id <$> t) → NoDup (id <$> all_stuck)))
    ∧ let all_stuck := qunion potentially_stuck expired_jobs (table w) in
      printed_since w r.2 !! 5
        = Some [Lit "Total jobs to clear: "; Num (length all_stuck)]
      ∧ (default true dry_arg = true
         ∨ (∀ i, i < length all_stuck → faults w (length (journal w) + i) = false) →
         r.1 = Return (length all_stuck)
         ∧ filter is_clearing_line (printed_since w r.2) = clearing_line <$> all_stuck)
      ∧ (default true dry_arg = false →
         (∀ i, i < length all_stuck → faults w (length (journal w) + i) = false) →
         written_since w r.2 = (λ j, (id j, true)) <$> all_stuck).
Proof.
  intros now r Hnow.
  pose proof (debug_clear_stuck_logic_unfold chan w) as Hrun. cbn zeta in Hrun.
  fold now in Hrun.
  assert (Hsub := datetime_sub_sane now 10 Hnow ltac:(lia)).
  rewrite Hsub in Hrun.
  eexists _, _, _. split; [exact Hrun|]. split; [done|]. split.
  { intros t all_stuck.
    pose proof (elem_of_all_stuck_at chan now t) as Hmem.
    split; [exact Hmem|]. split; [apply NoDup_remove_dups|].
    intros Hkeys. apply NoDup_fmap_2_strong; [|apply NoDup_remove_dups].
    intros a b Ha Hb Hab. apply Hmem in Ha, Hb.
    eapply (NoDup_keys_inj t); tauto. }
  fold (all_stuck_at chan now). set (jobs := all_stuck_at chan now (table w)).
  cbn zeta. split; [|split].
  - destruct (manual_clear_stuck_prints_preamble chan dry_arg w Hnow) as [rest Hout].
    fold r in Hout. rewrite Hout. reflexivity.
  - intros Hcase. subst r.
    destruct (default true dry_arg) eqn:Hdry.
    + rewrite (manual_clear_stuck_dry chan dry_arg w Hdry). fold now jobs.
      rewrite Hsub. cbn [fst snd]. split; [done|].
      erewrite printed_since_app by reflexivity.
      by rewrite !filter_app, filter_clearing_preamble, filter_clearing_lines,
        filter_clearing_closing, app_nil_r.
    + assert (dry_arg = Some false) as -> by (by destruct dry_arg as [[]|]).
      destruct Hcase as [[=]|Hok].
      rewrite (manual_clear_stuck_wet_ok chan w _ Hsub Hok). fold now jobs.
      cbn [fst snd]. split; [done|].
      erewrite printed_since_app by reflexivity.
      by rewrite !filter_app, filter_clearing_preamble, filter_clearing_lines,
        filter_clearing_closing, app_nil_r.
  - intros Hdry Hok. subst r.
    assert (dry_arg = Some false) as -> by (by destruct dry_arg as [[]|]).
    rewrite (manual_clear_stuck_wet_ok chan w _ Hsub Hok). fold now jobs.
    by apply written_since_app.
Qed.

Lemma reclaim_candidates_union_witness :
  let w := sample_world sample_table in
  let r := manual_clear_stuck None (Some false) w in
  sane_reading (clock w (ticks w))
  ∧ ∃ potentially_stuck expired_jobs,
      (debug_clear_stuck_logic None w).1 = Return (potentially_stuck, expired_jobs)
      ∧ id <$> qunion potentially_stuck expired_jobs (table w) = ["a"; "b"]
      ∧ printed_since w r.2 !! 5 = Some [Lit "Total jobs to clear: "; Num 2]
      ∧ r.1 = Return 2
      ∧ written_since w r.2 = [("a", true); ("b", true)].
Proof.
  intros w r.
  destruct (reclaim_candidates_union None (Some false) w sample_now_sane)
    as (ps & ex & w' & Hrun & _ & _ & Htotal & Hret & Hwr).
  split; [exact sample_now_sane|].
  exists ps, ex.
  assert (Hps : ps = potentially_stuck_at None sample_now
                ∧ ex = expired_jobs_at None sample_now).
  { pose proof (debug_clear_stuck_logic_Return _ _ _ _ _ Hrun) as (-> & -> & _).
    split; reflexivity. }
  destruct Hps as [-> ->].
  split; [by rewrite Hrun|]. split; [reflexivity|].
  split; [exact Htotal|].
  assert (Hok : ∀ i : nat,
    i < length (qunion (potentially_stuck_at None sample_now)
                       (expired_jobs_at None sample_now) (table w)) →
    faults w (length (journal w) + i) = false) by (intros i _; reflexivity).
  split; [exact (proj1 (Hret (or_intror Hok)))|].
  exact (Hwr eq_refl Hok).
Defined.

(** ** The guard of [dry_run] is a truth test *)

Lemma read_only_for_fold {A S} (xs : list A) (acc : S) (body : S → A → M S) :
  (∀ s x, read_only (body s x)) → read_only (for_fold xs acc body).
Proof.
  intros Hbody. revert acc. induction xs as [|x rest IH]; intros acc; cbn [for_fold].
  - apply read_only_ret.
  - apply read_only_bind; [apply Hbody|]. intros acc'. apply IH.
Qed.

Lemma read_only_clear_job_dry (n : nat) (job : Job) : read_only (clear_job true n job).
Proof. unfold clear_job. cbn [negb]. frame. Qed.

Lemma read_only_manual_clear_stuck_any (chan : option string)
    (dry_arg : option pyval) :
  truth (default (PyBool true) dry_arg) = true →
  read_only (manual_clear_stuck_any chan dry_arg).
Proof.
  intros Htruth. unfold manual_clear_stuck_any. cbv zeta. rewrite Htruth.
  cbn [negb].
  apply read_only_bind; [apply read_only_print|intros _].
  apply read_only_bind; [apply read_only_print|intros _].
  apply read_only_bind; [apply read_only_debug_clear_stuck_logic|intros qs].
  apply read_only_bind; [apply read_only_qcount|intros n].
  apply read_only_bind; [apply read_only_print|intros _].
  apply read_only_bind; [apply read_only_fetch|intros jobs].
  apply read_only_bind.
  - apply read_only_for_fold. intros s x. apply read_only_clear_job_dry.
  - intros c. frame.
Qed.

(** On [True], [False] and an omitted argument the routine at any value is
    the routine at booleans. *)
Lemma manual_clear_stuck_any_bool (chan : option string) (dry_arg : option bool) :
  manual_clear_stuck_any chan (PyBool <$> dry_arg) = manual_clear_stuck chan dry_arg.
Proof. by destruct dry_arg as [[]|]. Qed.

(** C9, as the code has it: [dry_run] is [True] when the call does not give
    it, and every call that leaves it out or passes a value that tests true
    leaves the table as it was, hence the status, [finished_at] and
    [last_error] of every record, and requests no write.  The guard is
    [if not dry_run]: it is the truth of the value that counts, not its
    being [False]. *)
Theorem dry_run_guard_is_a_truth_test (chan : option string)
    (dry_arg : option pyval) (w : World) :
  truth (default (PyBool true) dry_arg) = true →
  let r := manual_clear_stuck_any chan dry_arg w in
  manual_clear_stuck_any chan None w
    = manual_clear_stuck_any chan (Some (PyBool true)) w
  ∧ table r.2 = table w
  ∧ written_since w r.2 = []
  ∧ ∀ i row, table w !! i = Some row →
      ∃ row', table r.2 !! i = Some row'
        ∧ status row' = status row
        ∧ finished_at row' = finished_at row
        ∧ last_error row' = last_error row.
Proof.
  intros Htruth r.
  destruct (read_only_manual_clear_stuck_any chan dry_arg Htruth w)
    as (Ht & Hj & _). fold r in Ht, Hj.
  split; [reflexivity|]. split; [exact Ht|]. split.
  - apply written_since_app. by rewrite Hj, app_nil_r.
  - intros i row Hrow. exists row. by rewrite Ht.
Qed.

Lemma dry_run_guard_is_a_truth_test_witness :
  let w := sample_world sample_table in
  let r := manual_clear_stuck_any (Some "email") None w in
  truth (default (PyBool true) None) = true
  ∧ manual_clear_stuck_any (Some "email") None w
      = manual_clear_stuck_any (Some "email") (Some (PyBool true)) w
  ∧ table r.2 = table w
  ∧ written_since w r.2 = []
  ∧ ∀ i row, table w !! i = Some row →
      ∃ row', table r.2 !! i = Some row'
        ∧ status row' = status row
        ∧ finished_at row' = finished_at row
        ∧ last_error row' = last_error row.
Proof.
  intros w r. split; [reflexivity|].
  exact (dry_run_guard_is_a_truth_test (Some "email") None w eq_refl).
Defined.

(** C9, as the claim has it, fails: a call that passes [None] for
    [dry_run], or [0], or the empty string, does not pass [False], yet the
    guard lets it write: the two stuck jobs of the sample table are set to
    failed and saved, as with [False]. *)
Lemma falsy_dry_run_writes :
  let w := sample_world sample_table in
  let r := manual_clear_stuck_any None (Some PyNone) w in
  PyNone ≠ PyBool false
  ∧ r.1 = Return 2
  ∧ status <$> table r.2 = ["failed"; "failed"; "finished"]
  ∧ written_since w r.2 = [("a", true); ("b", true)]
  ∧ table r.2 ≠ table w
  ∧ table (manual_clear_stuck_any None (Some (PyInt 0)) w).2 = table r.2
  ∧ table (manual_clear_stuck_any None (Some (PyStr "")) w).2 = table r.2
  ∧ table (manual_clear_stuck None (Some false) w).2 = table r.2.
Proof.
  intros w r.
  assert (Hst : status <$> table r.2 = ["failed"; "failed"; "finished"])
    by (vm_compute; reflexivity).
  split; [discriminate|]. split; [vm_compute; reflexivity|]. split; [exact Hst|].
  split; [vm_compute; reflexivity|]. split.
  - intros Heq. rewrite Heq in Hst. vm_compute in Hst. discriminate Hst.
  - repeat split; vm_compute; reflexivity.
Qed.

(** ** The three counts a run announces *)

(** X4: at a sane clock and over a table with distinct keys, the fourth,
    fifth and sixth lines a run of [manual_clear_stuck] prints carry the
    sizes of the "potentially stuck" set, of the "expired" set and of the
    union the routine clears; the total is the sum of the two sizes less
    the number of jobs that are in both sets.  A run that writes and meets
    no failing write returns that total and requests exactly that many
    writes, no key twice: a job that is both old and expired is written,
    once. *)
Theorem total_to_clear_counts_overlap_once (chan : option string)
    (dry_arg : option bool) (w : World) :
  let now := clock w (ticks w) in
  let r := manual_clear_stuck chan dry_arg w in
  let out := printed_since w r.2 in
  let stuck := potentially_stuck_at chan now (table w) in
  let expired := expired_jobs_at chan now (table w) in
  let both := filter (λ j, j ∈ expired) stuck in
  sane_reading now → NoDup (id <$> table w) →
  ∃ n_stuck n_expired n_total : nat,
    out !! 3 = Some [Lit "Jobs potentially stuck (pending/running > 10min): ";
                     Num n_stuck]
    ∧ out !! 4 = Some [Lit "Expired jobs still pending/running: "; Num n_expired]
    ∧ out !! 5 = Some [Lit "Total jobs to clear: "; Num n_total]
    ∧ n_stuck = length stuck ∧ n_expired = length expired
    ∧ n_total + length both = n_stuck + n_expired
    ∧ n_total ≤ n_stuck + n_expired
    ∧ (default true dry_arg = false →
       (∀ i, i < n_total → faults w (length (journal w) + i) = false) →
       r.1 = Return n_total
       ∧ NoDup (cleared_ids w r.2)
       ∧ length (cleared_ids w r.2) = n_total
       ∧ ∀ j, j ∈ both → id j ∈ cleared_ids w r.2).
Proof.
  intros now r out stuck expired both Hsane Hkeys.
  set (jobs := all_stuck_at chan now (table w)).
  assert (Hcount : length jobs + length both = length stuck + length expired).
  { apply all_stuck_at_count. by eapply NoDup_fmap_1. }
  destruct (manual_clear_stuck_prints_preamble chan dry_arg w Hsane) as [rest Hout].
  fold r out in Hout.
  exists (length stuck), (length expired), (length jobs).
  split; [by rewrite Hout|]. split; [by rewrite Hout|]. split; [by rewrite Hout|].
  split; [done|]. split; [done|]. split; [exact Hcount|]. split; [lia|].
  intros Hdry Hok. subst r.
  assert (dry_arg = Some false) as -> by (by destruct dry_arg as [[]|]).
  assert (Hsub := datetime_sub_sane now 10 Hsane ltac:(lia)).
  assert (Hids : cleared_ids w (manual_clear_stuck chan (Some false) w).2
                 = id <$> jobs).
  { rewrite (manual_clear_stuck_wet_ok chan w _ Hsub Hok). fold now jobs.
    apply (cleared_ids_app _ _ jobs []); [|done]. cbn. by rewrite app_nil_r. }
  rewrite Hids.
  rewrite (manual_clear_stuck_wet_ok chan w _ Hsub Hok). fold now jobs.
  cbn [fst]. split; [done|].
  split; [by apply all_stuck_at_keys|]. split; [by rewrite length_fmap|].
  intros j [_ Hj]%list_elem_of_filter.
  apply list_elem_of_fmap_2. unfold jobs, all_stuck_at, qunion.
  rewrite elem_of_remove_dups, elem_of_app. by left.
Qed.

Lemma total_to_clear_counts_overlap_once_witness :
  let w := sample_world [old_expired_job; running_expired_job] in
  let r := manual_clear_stuck None (Some false) w in
  let out := printed_since w r.2 in
  (sane_reading (clock w (ticks w)) ∧ NoDup (id <$> table w))
  ∧ ∃ n_stuck n_expired n_total : nat,
      out !! 3 = Some [Lit "Jobs potentially stuck (pending/running > 10min): ";
                       Num n_stuck]
      ∧ out !! 4 = Some [Lit "Expired jobs still pending/running: "; Num n_expired]
      ∧ out !! 5 = Some [Lit "Total jobs to clear: "; Num n_total]
      ∧ n_stuck = 1 ∧ n_expired = 2
      ∧ n_total + 1 = n_stuck + n_expired
      ∧ r.1 = Return n_total
      ∧ cleared_ids w r.2 = ["e"; "b"].
Proof.
  intros w r out.
  assert (H1 : sane_reading (clock w (ticks w))) by exact sample_now_sane.
  assert (H2 : NoDup (id <$> table w)).
  { apply NoDup_cons. split; [|apply NoDup_singleton].
    intros [H|H%elem_of_nil]%elem_of_cons; [discriminate H|done]. }
  destruct (total_to_clear_counts_overlap_once None (Some false) w H1 H2)
    as (ns & ne & nt & H3 & H4 & H5 & Hs & He & Hsum & _ & Hwet).
  split; [auto|]. exists ns, ne, nt.
  split; [exact H3|]. split; [exact H4|]. split; [exact H5|].
  split; [exact Hs|]. split; [exact He|]. split; [exact Hsum|].
  assert (Hok : ∀ i, i < nt → faults w (length (journal w) + i) = false)
    by (intros i _; reflexivity).
  split; [exact (proj1 (Hwet eq_refl Hok))|].
  vm_compute. reflexivity.
Defined.
